(** * Triage admission scheduler of [server.js]: a shallow embedding

    The definitions come first and follow the source: the [Resources] pool,
    the patient record, the helpers on severities and prescriptions, the
    CSV codec, the module-level scheduler state with the allocation pass,
    registration, administrative discharge and the doctor workers.  The
    theorems follow.

    Numbers of the program are JavaScript numbers; every number the
    scheduler computes with is an integer here and is modelled as [Z].
    Strings are sequences of characters ([string]).  Runs start from the
    initial values of the module-level variables; reading the CSV file
    back at start-up and writing it are not part of the model, only the
    codec is. *)

From Stdlib Require Import ZArith Lia Bool List Sorted.
From Stdlib Require Import Ascii String DecimalString DecimalPos.
From stdpp Require Import gmap list strings.

Local Open Scope Z_scope.

(** ** The resource pool ([const Resources = { ... }]) *)

Module Resources.

Record t : Type := mk {
  totalBeds : Z;
  usedBeds : Z;
  totalVentilators : Z;
  usedVentilators : Z
}.

(** The object literal's initial field values. *)
Definition init : t := mk 0 0 0 0.

Definition setTotals (beds vents : Z) (r : t) : t :=
  mk beds (Z.min (usedBeds r) beds) vents (Z.min (usedVentilators r) vents).

(** [allocateBed] returns the new state and the returned handle
    ([-1] when the pool is full). *)
Definition allocateBed (r : t) : t * Z :=
  if usedBeds r <? totalBeds r
  then (mk (totalBeds r) (usedBeds r + 1) (totalVentilators r) (usedVentilators r),
        usedBeds r + 1)
  else (r, -1).

(** The argument [idx] is ignored by the source as well. *)
Definition releaseBed (idx : Z) (r : t) : t :=
  if 0 <? usedBeds r
  then mk (totalBeds r) (usedBeds r - 1) (totalVentilators r) (usedVentilators r)
  else r.

Definition allocateVentilator (r : t) : t * Z :=
  if usedVentilators r <? totalVentilators r
  then (mk (totalBeds r) (usedBeds r) (totalVentilators r) (usedVentilators r + 1),
        usedVentilators r + 1)
  else (r, -1).

Definition releaseVentilator (idx : Z) (r : t) : t :=
  if 0 <? usedVentilators r
  then mk (totalBeds r) (usedBeds r) (totalVentilators r) (usedVentilators r - 1)
  else r.

Definition availableBeds (r : t) : Z := totalBeds r - usedBeds r.
Definition availableVentilators (r : t) : Z :=
  totalVentilators r - usedVentilators r.

(** The calls a client of the pool can make, and a run of such calls
    from the initial pool. *)
Inductive call : Type :=
| AllocateBed
| ReleaseBed (idx : Z)
| AllocateVentilator
| ReleaseVentilator (idx : Z)
| SetTotals (beds vents : Z).

Definition perform (r : t) (c : call) : t :=
  match c with
  | AllocateBed => fst (allocateBed r)
  | ReleaseBed idx => releaseBed idx r
  | AllocateVentilator => fst (allocateVentilator r)
  | ReleaseVentilator idx => releaseVentilator idx r
  | SetTotals b v => setTotals b v r
  end.

Definition run (cs : list call) : t := fold_left perform cs init.

(** The bounds of the pool. *)
Definition bounded (r : t) : Prop :=
  0 <= usedBeds r <= totalBeds r /\
  0 <= usedVentilators r <= totalVentilators r.

(** A call passes usable totals: every call but [SetTotals] does, and
    [SetTotals] does when both numbers are non-negative. *)
Definition totals_nonneg (c : call) : Prop :=
  match c with
  | SetTotals b v => 0 <= b /\ 0 <= v
  | _ => True
  end.

End Resources.


(** ** Patient records *)

Module Patient.

(** The object built by [registerPatient] and by [patientFromCSVLine].
    [status] is one of the four strings below in every record the scheduler
    builds; the CSV reader stores whatever the file holds. *)
Record t : Type := mk {
  id : Z;
  name : string;
  age : Z;
  complaint : string;
  severity : Z;
  status : string;
  assignedBed : Z;
  assignedVentilator : Z;
  requiresVentilator : bool;
  enqueuedSequence : Z;
  registrationTime : string;
  treatmentDurationMs : Z;
  prescription : string
}.

(** [rec.assignedBed = b; rec.assignedVentilator = v; rec.status = s]. *)
Definition assign (b v : Z) (s : string) (p : t) : t :=
  mk (id p) (name p) (age p) (complaint p) (severity p) s b v
     (requiresVentilator p) (enqueuedSequence p) (registrationTime p)
     (treatmentDurationMs p) (prescription p).

(** [p.status = s]. *)
Definition setStatus (s : string) (p : t) : t :=
  assign (assignedBed p) (assignedVentilator p) s p.

(** [rec.prescription = rx]. *)
Definition setPrescription (rx : string) (p : t) : t :=
  mk (id p) (name p) (age p) (complaint p) (severity p) (status p)
     (assignedBed p) (assignedVentilator p) (requiresVentilator p)
     (enqueuedSequence p) (registrationTime p) (treatmentDurationMs p) rx.

End Patient.

Definition Waiting : string := "Waiting".
Definition Allocated : string := "Allocated".
Definition InTreatment : string := "In-Treatment".
Definition Discharged : string := "Discharged".

(** ** Helpers on severities *)

Definition CRITICAL_TREATMENT_MS : Z := 45000.
Definition SERIOUS_TREATMENT_MS : Z := 40000.
Definition NORMAL_TREATMENT_MS : Z := 35000.

Definition severityToString (sev : Z) : string :=
  if 3 <=? sev then "CRITICAL"
  else if sev =? 2 then "SERIOUS"
  else "NORMAL".

Definition intToSeverity (x : Z) : Z :=
  if 3 <=? x then 3 else if x =? 2 then 2 else 1.

Definition severityTreatmentMs (sev : Z) : Z :=
  if 3 <=? sev then CRITICAL_TREATMENT_MS
  else if sev =? 2 then SERIOUS_TREATMENT_MS
  else NORMAL_TREATMENT_MS.

Definition generatePrescription (patient : Patient.t) : string :=
  let base :=
    if 3 <=? Patient.severity patient
    then "ICU Medications + Broad-Spectrum Antibiotics"
    else if Patient.severity patient =? 2
    then "Analgesics + Continuous Monitoring"
    else "Rest + Paracetamol 500mg" in
  if Patient.requiresVentilator patient
  then base +:+ " | Ventilator Support Required"
  else base.

(** ** The CSV codec *)

Module CSV.

(** The double quote and the comma. *)
Definition dquote : ascii := "034"%char.
Definition comma : ascii := ","%char.

Definition is_dquote (c : ascii) : bool := Ascii.eqb c dquote.
Definition is_comma (c : ascii) : bool := Ascii.eqb c comma.

(** [escapeCSV]: a global replace that doubles every double-quote
    character of [String(s)]. *)
Fixpoint escapeCSV (s : string) : string :=
  match s with
  | EmptyString => EmptyString
  | String c rest =>
      if is_dquote c
      then String dquote (String dquote (escapeCSV rest))
      else String c (escapeCSV rest)
  end.

(** [unescapeCSV]: a global replace; scanning from the left, every pair of
    adjacent double-quote characters becomes one, and matches do not
    overlap. *)
Fixpoint unescapeCSV (s : string) : string :=
  match s with
  | EmptyString => EmptyString
  | String c rest =>
      match rest with
      | String c' rest' =>
          if is_dquote c && is_dquote c'
          then String dquote (unescapeCSV rest')
          else String c (unescapeCSV rest)
      | EmptyString => String c EmptyString
      end
  end.

(** [String(n)] for an integer [n]. *)
Definition numberToString (n : Z) : string :=
  NilZero.string_of_int (Z.to_int n).

Definition quoted (s : string) : string :=
  String dquote (s +:+ String dquote EmptyString).

(** [Array.prototype.join] with a comma as separator. *)
Fixpoint join (fields : list string) : string :=
  match fields with
  | [] => EmptyString
  | [f] => f
  | f :: fs => f +:+ String comma (join fs)
  end.

Definition patientToCSV (p : Patient.t) : string :=
  join [ numberToString (Patient.id p);
         quoted (escapeCSV (Patient.name p));
         numberToString (Patient.age p);
         quoted (escapeCSV (Patient.complaint p));
         numberToString (Patient.severity p);
         Patient.status p;
         numberToString (Patient.assignedBed p);
         (if Patient.requiresVentilator p then "1" else "0");
         numberToString (Patient.assignedVentilator p);
         numberToString (Patient.enqueuedSequence p);
         quoted (Patient.registrationTime p);
         numberToString (Patient.treatmentDurationMs p);
         quoted (escapeCSV (Patient.prescription p)) ].

(** [cur += c] appends at the end of the field being read. *)
Definition snoc (cur : string) (c : ascii) : string :=
  cur +:+ String c EmptyString.

(** The loop of [parseCSVLine], on the characters still to read, with the
    fields finished so far ([out]), the field being read ([cur]) and the
    [inQuotes] flag.  The look-ahead [line[i + 1]] is the head of the rest;
    [i++] in the doubled-quote branch skips it. *)
Fixpoint parseCSVLoop (line : string) (out : list string) (cur : string)
    (inQuotes : bool) : list string :=
  match line with
  | EmptyString => out ++ [cur]
  | String c rest =>
      if is_dquote c then
        if negb inQuotes then parseCSVLoop rest out cur true
        else
          match rest with
          | String c' rest' =>
              if is_dquote c'
              then parseCSVLoop rest' out (snoc cur dquote) inQuotes
              else parseCSVLoop rest out cur false
          | EmptyString => parseCSVLoop rest out cur false
          end
      else if is_comma c && negb inQuotes
      then parseCSVLoop rest (out ++ [cur]) EmptyString inQuotes
      else parseCSVLoop rest out (snoc cur c) inQuotes
  end.

Definition parseCSVLine (line : string) : list string :=
  parseCSVLoop line [] EmptyString false.

(** [parseInt(s, 10)]: leading white space is skipped, an optional sign is
    read, then the longest run of decimal digits; [None] stands for [NaN]
    (no digit found). *)
Definition is_space (c : ascii) : bool :=
  let n := nat_of_ascii c in
  ((9 <=? n) && (n <=? 13))%nat || (n =? 32)%nat.

Definition digit_of (c : ascii) : option Z :=
  let n := nat_of_ascii c in
  if ((48 <=? n) && (n <=? 57))%nat then Some (Z.of_nat n - 48) else None.

Fixpoint skipSpaces (s : string) : string :=
  match s with
  | String c rest => if is_space c then skipSpaces rest else s
  | EmptyString => s
  end.

Fixpoint readDigits (s : string) (acc : option Z) : option Z :=
  match s with
  | String c rest =>
      match digit_of c with
      | Some d => readDigits rest (Some (10 * default 0 acc + d))
      | None => acc
      end
  | EmptyString => acc
  end.

Definition parseInt (s : string) : option Z :=
  match skipSpaces s with
  | String "-" rest => Z.opp <$> readDigits rest None
  | String "+" rest => readDigits rest None
  | t => readDigits t None
  end.

(** What [patientFromCSVLine] returns.  [NotANumber] stands for an object
    one of whose integer fields is [NaN]; [severity] and
    [requiresVentilator] absorb a [NaN] as the source does
    ([intToSeverity(NaN)] is 1 and [NaN !== 0] is true). *)
Inductive fromCSV : Type :=
| Null
| NotANumber
| Object (p : Patient.t).

Definition field (fields : list string) (i : nat) : string :=
  nth i fields EmptyString.

Definition patientFromCSVLine (line : string) : fromCSV :=
  let fields := parseCSVLine line in
  if (length fields <? 13)%nat then Null
  else
    let severity :=
      match parseInt (field fields 4) with
      | Some x => intToSeverity x
      | None => 1
      end in
    let requiresVentilator :=
      match parseInt (field fields 7) with
      | Some x => negb (x =? 0)
      | None => true
      end in
    match parseInt (field fields 0), parseInt (field fields 2),
          parseInt (field fields 6), parseInt (field fields 8),
          parseInt (field fields 9), parseInt (field fields 11) with
    | Some id, Some age, Some assignedBed, Some assignedVentilator,
      Some enqueuedSequence, Some treatmentDurationMs =>
        Object (Patient.mk id (unescapeCSV (field fields 1)) age
                  (unescapeCSV (field fields 3)) severity (field fields 5)
                  assignedBed assignedVentilator requiresVentilator
                  enqueuedSequence (unescapeCSV (field fields 10))
                  treatmentDurationMs (unescapeCSV (field fields 12)))
    | _, _, _, _, _, _ => NotANumber
    end.

End CSV.

(** ** The scheduler state

    The module-level variables of the source.  A waiting-queue entry is the
    object [{ patient: p, sequence: p.enqueuedSequence }]; its [patient]
    is the very object stored in [patientRecords] under [p.id].  Through
    that reference the code reads only [id], [severity] and
    [requiresVentilator], which no function assigns after the record is
    built; every write goes through [patientRecords.get(...)].  The model
    therefore keeps the record as built in the entry and the registry as
    the one store of the mutable fields; [entries_mirror_registry] below
    shows that both views agree on what is read through the entry.

    [activeTreatmentTimers] is the key set of the source map from patient
    id to timer handle.  Writing the CSV file ([savePatientsToFile],
    [Resources.saveToFile]) changes none of these variables and is left
    out. *)

Record WaitingEntry : Type := mkEntry {
  patient : Patient.t;
  sequence : Z
}.

Record State : Type := mkState {
  resources : Resources.t;
  patientRecords : gmap Z Patient.t;
  waitingQueue : list WaitingEntry;
  readyQueue : list Z;
  systemRunning : bool;
  numberOfDoctors : Z;
  sequenceCounter : Z;
  nextPatientId : Z;
  activeTreatmentTimers : gset Z
}.

Definition initialState : State :=
  mkState Resources.init ∅ [] [] false 0 0 1 ∅.

(** ** The admission queue order *)

(** The comparator handed to [waitingQueue.sort]. *)
Definition compareWaiting (a b : WaitingEntry) : Z :=
  if negb (Patient.severity (patient a) =? Patient.severity (patient b))
  then Patient.severity (patient b) - Patient.severity (patient a)
  else sequence a - sequence b.

(** [Array.prototype.sort] is a stable sort: with a comparator that is a
    consistent ordering, as [compareWaiting] is, its result is the one
    stable sorted rearrangement of the array.  Insertion from the right,
    placing an element before the first one it does not come after,
    computes that rearrangement. *)
Fixpoint sortInsert {A : Type} (cmp : A -> A -> Z) (x : A) (l : list A)
    : list A :=
  match l with
  | [] => [x]
  | y :: l' => if cmp x y <=? 0 then x :: l else y :: sortInsert cmp x l'
  end.

Fixpoint arraySort {A : Type} (cmp : A -> A -> Z) (l : list A) : list A :=
  match l with
  | [] => []
  | x :: l' => sortInsert cmp x (arraySort cmp l')
  end.

Definition sortWaitingQueue (wq : list WaitingEntry) : list WaitingEntry :=
  arraySort compareWaiting wq.

(** ** The allocation pass *)

(** The [while] loop of [tryAllocateResources], by recursion on the waiting
    queue: every iteration that does not [break] removes the front entry.
    The loop carries the pool, the registry and the ready queue and returns
    them with the queue that is left. *)
Fixpoint allocateLoop (wq : list WaitingEntry) (res : Resources.t)
    (records : gmap Z Patient.t) (ready : list Z)
    : list WaitingEntry * Resources.t * gmap Z Patient.t * list Z :=
  match wq with
  | [] => (wq, res, records, ready)
  | top :: rest =>
      let p := patient top in
      let '(res1, bedIndex) := Resources.allocateBed res in
      if bedIndex =? -1 then (wq, res1, records, ready)
      else
        let '(res2, ventIndex) :=
          if Patient.requiresVentilator p
          then Resources.allocateVentilator res1
          else (res1, -1) in
        if Patient.requiresVentilator p && (ventIndex =? -1)
        then (top :: rest, Resources.releaseBed bedIndex res2, records, ready)
        else
          let records' :=
            match records !! Patient.id p with
            | Some rec =>
                <[Patient.id p := Patient.assign bedIndex ventIndex Allocated rec]>
                  records
            | None => records
            end in
          allocateLoop rest res2 records' (ready ++ [Patient.id p])
  end.

Definition tryAllocateResources (st : State) : State :=
  let '(wq, res, records, ready) :=
    allocateLoop (waitingQueue st) (resources st) (patientRecords st)
      (readyQueue st) in
  mkState res records wq ready (systemRunning st) (numberOfDoctors st)
    (sequenceCounter st) (nextPatientId st) (activeTreatmentTimers st).

(** ** Registration and administrative discharge *)

(** [now] is the string [getCurrentTimestamp()] returns at the call.  The
    result is the new state with the record read back from the registry
    after the allocation pass ([updated]); the [info] object added to the
    response is left out. *)
Definition registerPatient (name : string) (age : Z) (complaint : string)
    (severity : Z) (requiresVentilator : bool) (now : string) (st : State)
    : State * option Patient.t :=
  let sev := intToSeverity (if severity =? 0 then 1 else severity) in
  let p :=
    Patient.mk (nextPatientId st) name age complaint sev Waiting (-1) (-1)
      requiresVentilator (sequenceCounter st) now (severityTreatmentMs sev)
      EmptyString in
  let st1 :=
    mkState (resources st)
      (<[Patient.id p := p]> (patientRecords st))
      (sortWaitingQueue
         (waitingQueue st ++ [mkEntry p (Patient.enqueuedSequence p)]))
      (readyQueue st) (systemRunning st) (numberOfDoctors st)
      (sequenceCounter st + 1) (nextPatientId st + 1)
      (activeTreatmentTimers st) in
  let st2 := tryAllocateResources st1 in
  (st2, patientRecords st2 !! Patient.id p).

(** The two guarded releases shared by both discharge paths:
    [if (p.assignedBed !== -1) { releaseBed; p.assignedBed = -1 }] and the
    same for the ventilator. *)
Definition releaseHeld (p : Patient.t) (res : Resources.t) : Resources.t :=
  let res1 :=
    if negb (Patient.assignedBed p =? -1)
    then Resources.releaseBed (Patient.assignedBed p) res else res in
  if negb (Patient.assignedVentilator p =? -1)
  then Resources.releaseVentilator (Patient.assignedVentilator p) res1
  else res1.

Definition dischargePatient (id : Z) (st : State) : State * bool :=
  match patientRecords st !! id with
  | None => (st, false)
  | Some p =>
      let p' := Patient.assign (-1) (-1) Discharged p in
      let st1 :=
        mkState (releaseHeld p (resources st))
          (<[id := p']> (patientRecords st))
          (waitingQueue st) (readyQueue st) (systemRunning st)
          (numberOfDoctors st) (sequenceCounter st) (nextPatientId st)
          (activeTreatmentTimers st) in
      (tryAllocateResources st1, true)
  end.

(** The handler of [POST /api/resources/configure]: a missing number
    ([None]) defaults to 0, a missing doctor count to the current one. *)
Definition configure (beds ventilators doctors : option Z) (st : State)
    : State :=
  mkState
    (Resources.setTotals (default 0 beds) (default 0 ventilators)
       (resources st))
    (patientRecords st) (waitingQueue st) (readyQueue st) (systemRunning st)
    (default (numberOfDoctors st) doctors) (sequenceCounter st)
    (nextPatientId st) (activeTreatmentTimers st).

(** ** The doctor workers

    JavaScript runs the code between two [await]s to completion, so a
    worker is a sequence of two kinds of atomic steps: the head of a loop
    iteration up to the [await] ([doctorPick]) and the timer callback that
    ends a treatment ([treatmentDone]). *)

Definition startDoctorWorkers (st : State) : State :=
  if systemRunning st then st
  else
    mkState (resources st) (patientRecords st) (waitingQueue st)
      (readyQueue st) true (numberOfDoctors st) (sequenceCounter st)
      (nextPatientId st) (activeTreatmentTimers st).

Definition stopDoctorWorkers (st : State) : State :=
  if negb (systemRunning st) then st
  else
    mkState (resources st) (patientRecords st) (waitingQueue st)
      (readyQueue st) false (numberOfDoctors st) (sequenceCounter st)
      (nextPatientId st) ∅.

(** One loop iteration of a worker: [readyQueue.shift()], the two
    [continue] tests, then the status update and the timer. *)
Definition doctorPick (st : State) : State :=
  if negb (systemRunning st) then st
  else
    match readyQueue st with
    | [] => st
    | pid :: rest =>
        let records_timers :=
          if pid =? 0 then (patientRecords st, activeTreatmentTimers st)
          else
            match patientRecords st !! pid with
            | None => (patientRecords st, activeTreatmentTimers st)
            | Some p =>
                (<[pid := Patient.setStatus InTreatment p]> (patientRecords st),
                 {[pid]} ∪ activeTreatmentTimers st)
            end in
        mkState (resources st) (fst records_timers) (waitingQueue st) rest
          (systemRunning st) (numberOfDoctors st) (sequenceCounter st)
          (nextPatientId st) (snd records_timers)
    end.

(** The callback of the treatment timer of [pid]; it runs only while the
    timer is pending. *)
Definition treatmentDone (pid : Z) (st : State) : State :=
  if decide (pid ∈ activeTreatmentTimers st) then
    let st1 :=
      match patientRecords st !! pid with
      | Some rec =>
          let rec1 :=
            Patient.setStatus Discharged
              (Patient.setPrescription (generatePrescription rec) rec) in
          let rec2 := Patient.assign (-1) (-1) (Patient.status rec1) rec1 in
          tryAllocateResources
            (mkState (releaseHeld rec1 (resources st))
               (<[pid := rec2]> (patientRecords st))
               (waitingQueue st) (readyQueue st) (systemRunning st)
               (numberOfDoctors st) (sequenceCounter st) (nextPatientId st)
               (activeTreatmentTimers st))
      | None => st
      end in
    mkState (resources st1) (patientRecords st1) (waitingQueue st1)
      (readyQueue st1) (systemRunning st1) (numberOfDoctors st1)
      (sequenceCounter st1) (nextPatientId st1)
      (activeTreatmentTimers st1 ∖ {[pid]})
  else st.

(** ** Runs of the scheduler *)

(** The operations of the scheduler and the worker steps.  [WorkerPick]
    may be taken by any worker whenever the pool runs, whatever the number
    of workers started. *)
Inductive Op : Type :=
| Register (name : string) (age : Z) (complaint : string) (severity : Z)
    (requiresVentilator : bool) (now : string)
| Discharge (id : Z)
| Configure (beds ventilators doctors : option Z)
| StartWorkers
| StopWorkers
| WorkerPick
| TreatmentDone (pid : Z).

Definition step (st : State) (o : Op) : State :=
  match o with
  | Register n a c s v now => fst (registerPatient n a c s v now st)
  | Discharge id => fst (dischargePatient id st)
  | Configure b v d => configure b v d st
  | StartWorkers => startDoctorWorkers st
  | StopWorkers => stopDoctorWorkers st
  | WorkerPick => doctorPick st
  | TreatmentDone pid => treatmentDone pid st
  end.

Definition run (ops : list Op) : State := fold_left step ops initialState.

(** ** Specification-side notions *)

(** A patient holds a bed (a ventilator) while the handle field differs
    from the sentinel [-1]. *)
Definition holdsBed (p : Patient.t) : Prop := Patient.assignedBed p <> -1.
Definition holdsVentilator (p : Patient.t) : Prop :=
  Patient.assignedVentilator p <> -1.

(** The admission order: higher severity first, and within one severity the
    earlier arrival first. *)
Definition admittedBefore (a b : WaitingEntry) : Prop :=
  Patient.severity (patient b) < Patient.severity (patient a) \/
  (Patient.severity (patient a) = Patient.severity (patient b) /\
   sequence a < sequence b).

(** The order of the comparator itself: [a] may stand before [b]. *)
Definition notAfter (a b : WaitingEntry) : Prop := compareWaiting a b <= 0.

(** The ids of the patients of a stretch of the queue. *)
Definition entryIds (wq : list WaitingEntry) : list Z :=
  map (fun e => Patient.id (patient e)) wq.

(** The regimen table of the specification, by tier name, and the
    ventilator suffix. *)
Definition baseRegimen (tier : string) : string :=
  if String.eqb tier "CRITICAL"
  then "ICU Medications + Broad-Spectrum Antibiotics"
  else if String.eqb tier "SERIOUS"
  then "Analgesics + Continuous Monitoring"
  else "Rest + Paracetamol 500mg".

Definition ventilatorSuffix (requiresVentilator : bool) : string :=
  if requiresVentilator then " | Ventilator Support Required" else "".

(** The position of a status on the path Waiting, Allocated, In-Treatment,
    Discharged. *)
Definition statusRank (s : string) : option nat :=
  if String.eqb s Waiting then Some 0%nat
  else if String.eqb s Allocated then Some 1%nat
  else if String.eqb s InTreatment then Some 2%nat
  else if String.eqb s Discharged then Some 3%nat
  else None.

(** [forward s s'] : status [s'] is not behind [s] on that path.  Every
    edge of the state machine of the specification, the direct edges to
    Discharged included, is forward in this sense, and so is staying
    put. *)
Definition forward (s s' : string) : Prop :=
  match statusRank s, statusRank s' with
  | Some n, Some n' => (n <= n')%nat
  | _, _ => False
  end.

(** Conditions on the text fields of a record: no double quote; neither
    double quote nor comma; no two adjacent double quotes. *)
Fixpoint noQuote (s : string) : bool :=
  match s with
  | EmptyString => true
  | String c rest => negb (CSV.is_dquote c) && noQuote rest
  end.

Fixpoint plain (s : string) : bool :=
  match s with
  | EmptyString => true
  | String c rest =>
      negb (CSV.is_dquote c) && negb (CSV.is_comma c) && plain rest
  end.

Fixpoint noDoubledQuote (s : string) : bool :=
  match s with
  | EmptyString => true
  | String c rest =>
      match rest with
      | String c' _ => negb (CSV.is_dquote c && CSV.is_dquote c')
      | EmptyString => true
      end && noDoubledQuote rest
  end.

(** What may follow the closing quote of a field: nothing, or a character
    that is not a double quote. *)
Definition closes (rest : string) : Prop :=
  match rest with
  | EmptyString => True
  | String c _ => CSV.is_dquote c = false
  end.

(** The value of a run of decimal digits read after [acc]. *)
Fixpoint uintValue (d : Decimal.uint) (acc : Z) : Z :=
  match d with
  | Decimal.Nil => acc
  | Decimal.D0 d' => uintValue d' (10 * acc + 0)
  | Decimal.D1 d' => uintValue d' (10 * acc + 1)
  | Decimal.D2 d' => uintValue d' (10 * acc + 2)
  | Decimal.D3 d' => uintValue d' (10 * acc + 3)
  | Decimal.D4 d' => uintValue d' (10 * acc + 4)
  | Decimal.D5 d' => uintValue d' (10 * acc + 5)
  | Decimal.D6 d' => uintValue d' (10 * acc + 6)
  | Decimal.D7 d' => uintValue d' (10 * acc + 7)
  | Decimal.D8 d' => uintValue d' (10 * acc + 8)
  | Decimal.D9 d' => uintValue d' (10 * acc + 9)
  end.

(** ** Invariants of the scheduler state *)

(** The fields of a record that no function assigns after it is built. *)
Definition sameIdentity (r r' : Patient.t) : Prop :=
  Patient.id r' = Patient.id r /\
  Patient.severity r' = Patient.severity r /\
  Patient.requiresVentilator r' = Patient.requiresVentilator r /\
  Patient.enqueuedSequence r' = Patient.enqueuedSequence r.

(** Every waiting entry refers to a record of the registry, stored under
    its id, that agrees with the entry on those fields; ids handed out so
    far lie below [nextPatientId]. *)
Definition mirrored (wq : list WaitingEntry) (recs : gmap Z Patient.t)
    (next : Z) : Prop :=
  forall e, e ∈ wq ->
    Patient.id (patient e) < next /\
    sequence e = Patient.enqueuedSequence (patient e) /\
    exists r, recs !! Patient.id (patient e) = Some r /\
              sameIdentity (patient e) r.

(** An Allocated record holds a bed, and a ventilator when it needs one. *)
Definition allocatedComplete (recs : gmap Z Patient.t) : Prop :=
  forall i p, recs !! i = Some p -> Patient.status p = Allocated ->
    holdsBed p /\ (Patient.requiresVentilator p = true -> holdsVentilator p).

(** Two entries are strictly ordered one way or the other. *)
Definition comparable (a b : WaitingEntry) : Prop :=
  admittedBefore a b \/ admittedBefore b a.

(** The queue is in admission order and its sequence numbers are below the
    counter. *)
Definition queueOrdered (wq : list WaitingEntry) (counter : Z) : Prop :=
  StronglySorted admittedBefore wq /\
  Forall (fun e => sequence e < counter) wq.

Definition ordered (st : State) : Prop :=
  queueOrdered (waitingQueue st) (sequenceCounter st).

Definition consistent (st : State) : Prop :=
  mirrored (waitingQueue st) (patientRecords st) (nextPatientId st) /\
  allocatedComplete (patientRecords st).

(** An operation that configures the pool passes usable totals. *)
Definition configuredNonneg (o : Op) : Prop :=
  match o with
  | Configure beds ventilators _ =>
      0 <= default 0 beds /\ 0 <= default 0 ventilators
  | _ => True
  end.

(** ** Sample inputs used by the examples below *)

Definition sampleCalls : list Resources.call :=
  [Resources.SetTotals 2 1; Resources.AllocateBed;
   Resources.AllocateVentilator; Resources.AllocateBed;
   Resources.SetTotals 1 0; Resources.ReleaseBed 2;
   Resources.ReleaseVentilator 1].

(** One bed, no ventilator, and a patient who needs one: the pass takes a
    bed for the front patient and rolls it back. *)
Definition blockedRun : list Op :=
  [Configure (Some 1) (Some 0) None;
   Register "Asha" 61 "not breathing" 3 true "2024-05-01 09:00:00"].

Definition blockedTop : WaitingEntry :=
  mkEntry
    (Patient.mk 1 "Asha" 61 "not breathing" 3 Waiting (-1) (-1) true 0
       "2024-05-01 09:00:00" 45000 "")
    0.

(** No bed at all, one NORMAL patient and one CRITICAL patient behind. *)
Definition fullRun : list Op :=
  [Register "Ben" 40 "sprain" 1 false "2024-05-01 09:00:00";
   Register "Cara" 35 "stroke" 3 false "2024-05-01 09:01:00"].

Definition fullTop : WaitingEntry :=
  mkEntry
    (Patient.mk 2 "Cara" 35 "stroke" 3 Waiting (-1) (-1) false 1
       "2024-05-01 09:01:00" 45000 "")
    1.

Definition fullRest : list WaitingEntry :=
  [mkEntry
     (Patient.mk 1 "Ben" 40 "sprain" 1 Waiting (-1) (-1) false 0
        "2024-05-01 09:00:00" 35000 "")
     0].

(** A patient registered while no bed is configured, so still Waiting. *)
Definition waitingRun : list Op :=
  [Register "Ben" 40 "sprain" 1 false "2024-05-01 09:00:00"].

(** The same, and one bed configured afterwards (configuring runs no
    allocation pass). *)
Definition lateBedRun : list Op :=
  waitingRun ++ [Configure (Some 1) (Some 0) None].

(** One bed: the first patient gets it, the second waits and is then
    discharged administratively. *)
Definition dischargedWaitingRun : list Op :=
  [Configure (Some 1) (Some 0) None;
   Register "Ben" 40 "sprain" 1 false "2024-05-01 09:00:00";
   Register "Cara" 35 "cough" 1 false "2024-05-01 09:01:00";
   Discharge 2].

(** One bed and one doctor: the patient is allocated, then discharged
    administratively before a worker picks it up. *)
Definition dischargedReadyRun : list Op :=
  [Configure (Some 1) (Some 0) (Some 1);
   Register "Ben" 40 "sprain" 1 false "2024-05-01 09:00:00";
   Discharge 1;
   StartWorkers].

(** Two beds: two patients take them, the first leaves, a third arrives. *)
Definition sharedBedRun : list Op :=
  [Configure (Some 2) (Some 0) None;
   Register "Ben" 40 "sprain" 1 false "2024-05-01 09:00:00";
   Register "Cara" 35 "cough" 1 false "2024-05-01 09:01:00";
   Discharge 1;
   Register "Dev" 52 "fracture" 2 false "2024-05-01 09:02:00"].

(** One bed and one ventilator, both handed to the one patient. *)
Definition ventilatedRun : list Op :=
  [Configure (Some 1) (Some 1) (Some 1);
   Register "Asha" 61 "not breathing" 3 true "2024-05-01 09:00:00"].

(** One bed, one ventilator and a running worker that has picked up the
    one patient. *)
Definition treatedRun : list Op :=
  [Configure (Some 1) (Some 1) (Some 1);
   Register "Asha" 61 "not breathing" 3 true "2024-05-01 09:00:00";
   StartWorkers;
   WorkerPick].

(** A record with a quote, a comma and a hyphen in its text fields. *)
Definition plainPatient : Patient.t :=
  Patient.mk 12 (String CSV.dquote "Doc" +:+ String CSV.dquote " Lee") 47
    "fever, cough" 2 InTreatment 3 (-1) false 11 "2024-05-01 09:00:00" 40000
    "".

(** A record whose name is two double-quote characters. *)
Definition quotedName : string :=
  String CSV.dquote (String CSV.dquote EmptyString).

Definition quotedPatient : Patient.t :=
  Patient.mk 1 quotedName 40 "sprain" 1 Waiting (-1) (-1) false 0
    "2024-05-01 09:00:00" 35000 "".

(** ** More of the source: timestamps, queue position, snapshot *)

(** [pad] of [getCurrentTimestamp]. *)
Definition pad (n : Z) : string :=
  if n <? 10 then "0" +:+ CSV.numberToString n else CSV.numberToString n.

(** [getCurrentTimestamp], as a function of what [getFullYear()],
    [getMonth()] (counted from 0), [getDate()], [getHours()],
    [getMinutes()] and [getSeconds()] return for the current date. *)
Definition getCurrentTimestamp
    (fullYear month date hours minutes seconds : Z) : string :=
  CSV.numberToString fullYear +:+ "-" +:+ pad (month + 1) +:+ "-" +:+
  pad date +:+ " " +:+ pad hours +:+ ":" +:+ pad minutes +:+ ":" +:+
  pad seconds.

(** The search loop of [GET /api/queue/position/:id]: [pos] counts the
    entries passed before the one whose patient has the id. *)
Fixpoint positionLoop (id : Z) (wq : list WaitingEntry) (pos : Z)
    : option Z :=
  match wq with
  | [] => None
  | wp :: rest =>
      if Patient.id (patient wp) =? id then Some pos
      else positionLoop id rest (pos + 1)
  end.

(** The handler sorts the queue in place, then searches; it answers with
    [inQueue] and [position] ([-1] when the id is not queued). *)
Definition queuePosition (id : Z) (st : State) : State * (bool * Z) :=
  let wq := sortWaitingQueue (waitingQueue st) in
  (mkState (resources st) (patientRecords st) wq (readyQueue st)
     (systemRunning st) (numberOfDoctors st) (sequenceCounter st)
     (nextPatientId st) (activeTreatmentTimers st),
   match positionLoop id wq 0 with
   | Some pos => (true, pos)
   | None => (false, -1)
   end).

(** The object [computeSnapshot] returns.  The loop over
    [patientRecords.values()] adds one to the counter of the status of each
    record, so each counter is the number of records with that status. *)
Record Snapshot : Type := mkSnapshot {
  snapTotalBeds : Z;
  snapAvailableBeds : Z;
  snapTotalVentilators : Z;
  snapAvailableVentilators : Z;
  waitingQueueSize : nat;
  statWaiting : nat;
  statAllocated : nat;
  statInTreatment : nat;
  statDischarged : nat;
  statTotal : nat
}.

Definition countStatus (s : string) (l : list Patient.t) : nat :=
  length (List.filter (fun p => String.eqb (Patient.status p) s) l).

Definition computeSnapshot (st : State) : Snapshot :=
  let values := (map_to_list (patientRecords st)).*2 in
  mkSnapshot
    (Resources.totalBeds (resources st))
    (Resources.availableBeds (resources st))
    (Resources.totalVentilators (resources st))
    (Resources.availableVentilators (resources st))
    (length (waitingQueue st))
    (countStatus Waiting values) (countStatus Allocated values)
    (countStatus InTreatment values) (countStatus Discharged values)
    (size (patientRecords st)).

(** ** Well-formed scheduler states *)

Definition validStatus (s : string) : Prop :=
  s = Waiting \/ s = Allocated \/ s = InTreatment \/ s = Discharged.

(** What holds of the record stored under [i]. *)
Definition recordOk (next counter i : Z) (p : Patient.t) : Prop :=
  Patient.id p = i /\ 1 <= i < next /\
  1 <= Patient.severity p <= 3 /\
  Patient.treatmentDurationMs p = severityTreatmentMs (Patient.severity p) /\
  validStatus (Patient.status p) /\
  0 <= Patient.enqueuedSequence p < counter.

Definition wellFormedParts (recs : gmap Z Patient.t) (wq : list WaitingEntry)
    (ready : list Z) (timers : gset Z) (next counter : Z) : Prop :=
  1 <= next /\ 0 <= counter /\
  (forall i p, recs !! i = Some p -> recordOk next counter i p) /\
  NoDup (entryIds wq) /\
  (forall e, e ∈ wq ->
     exists r, recs !! Patient.id (patient e) = Some r /\
               (Patient.status r = Waiting \/ Patient.status r = Discharged)) /\
  (forall i, (i ∈ ready) \/ (i ∈ timers) ->
     (i ∉ entryIds wq) /\ is_Some (recs !! i)) /\
  (forall i p, recs !! i = Some p -> Patient.status p = Waiting ->
     i ∈ entryIds wq).

Definition wellFormed (st : State) : Prop :=
  wellFormedParts (patientRecords st) (waitingQueue st) (readyQueue st)
    (activeTreatmentTimers st) (nextPatientId st) (sequenceCounter st).

(** The fields of a record that only [registerPatient] sets. *)
Definition sameRegistration (r r' : Patient.t) : Prop :=
  Patient.id r' = Patient.id r /\
  Patient.name r' = Patient.name r /\
  Patient.age r' = Patient.age r /\
  Patient.complaint r' = Patient.complaint r /\
  Patient.severity r' = Patient.severity r /\
  Patient.requiresVentilator r' = Patient.requiresVentilator r /\
  Patient.enqueuedSequence r' = Patient.enqueuedSequence r /\
  Patient.registrationTime r' = Patient.registrationTime r /\
  Patient.treatmentDurationMs r' = Patient.treatmentDurationMs r.

(** While the workers are stopped no treatment timer is pending. *)
Definition idleWithoutTimers (st : State) : Prop :=
  systemRunning st = false -> activeTreatmentTimers st = ∅.



(** A run with two patients in care, one waiting, and the workers at
    work. *)
Definition busyRun : list Op :=
  [Configure (Some 2) (Some 1) (Some 2);
   Register "Asha" 61 "not breathing" 3 true "2024-05-01 09:00:00";
   Register "Ben" 40 "sprain" 1 false "2024-05-01 09:01:00";
   Register "Cara" 35 "cough" 1 false "2024-05-01 09:02:00";
   StartWorkers;
   WorkerPick].

(** The number of commas of a line. *)
Fixpoint countCommas (s : string) : nat :=
  match s with
  | EmptyString => 0%nat
  | String c rest =>
      if CSV.is_comma c then S (countCommas rest) else countCommas rest
  end.

(** ** The triage suggestion ([analyzeTriage])

    Complaints are taken as ASCII text: [toLowerCase] maps the letters A
    to Z to a to z and leaves every other character alone. *)

Definition lowerChar (c : ascii) : ascii :=
  let n := nat_of_ascii c in
  if ((65 <=? n) && (n <=? 90))%nat then ascii_of_nat (n + 32) else c.

Fixpoint toLowerCase (s : string) : string :=
  match s with
  | EmptyString => EmptyString
  | String c rest => String (lowerChar c) (toLowerCase rest)
  end.

(** [startsWith s kw]: [kw] is a prefix of [s]. *)
Fixpoint startsWith (s kw : string) : bool :=
  match kw, s with
  | EmptyString, _ => true
  | String k kw', String c s' => Ascii.eqb c k && startsWith s' kw'
  | String _ _, EmptyString => false
  end.

(** [s.includes(kw)]: [kw] occurs somewhere in [s]. *)
Fixpoint includes (s kw : string) : bool :=
  startsWith s kw ||
  match s with
  | EmptyString => false
  | String _ s' => includes s' kw
  end.

Definition criticalKeywords : list string :=
  ["chest pain"; "heart attack"; "stroke"; "unconscious"; "not breathing";
   "severe bleeding"; "head injury"; "seizure"; "overdose"; "suicide";
   "stabbed"; "gunshot"; "can't breathe"; "choking"; "anaphylaxis";
   "severe burn"; "unresponsive"; "cardiac arrest"; "heavy bleeding"].

Definition criticalVentilatorKeywords : list string :=
  ["can't breathe"; "choking"; "respiratory"; "pneumonia severe";
   "asthma attack"].

Definition seriousKeywords : list string :=
  ["broken bone"; "fracture"; "high fever"; "severe pain"; "vomiting blood";
   "difficulty breathing"; "severe headache"; "abdominal pain";
   "dehydration"; "infection"; "deep cut"; "allergic reaction"; "asthma";
   "pneumonia"; "kidney stone"; "appendicitis"; "diabetic"; "blood sugar"].

Definition seriousVentilatorKeywords : list string :=
  ["difficulty breathing"; "asthma"; "pneumonia"].

Definition normalKeywords : list string :=
  ["cold"; "cough"; "fever mild"; "headache"; "minor cut"; "sprain"; "flu";
   "sore throat"; "rash"; "nausea"; "diarrhea"; "earache"; "toothache";
   "back pain mild"; "insect bite"; "minor burn"].

Record Triage : Type := mkTriage {
  triageSeverity : Z;
  triageConfidence : Z;
  matchedKeywords : list string;
  triageRequiresVentilator : bool;
  triageMessage : string
}.

(** One of the three keyword loops: for every keyword found in [lower],
    [severity] and [confidence] are set to the values of the tier and the
    keyword is pushed on [matchedKeywords]. *)
Definition scanKeywords (lower : string) (keywords : list string)
    (tierSeverity tierConfidence : Z) (state : Z * Z * list string)
    : Z * Z * list string :=
  fold_left
    (fun '(severity, confidence, matched) keyword =>
       if includes lower keyword
       then (tierSeverity, tierConfidence, matched ++ [keyword])
       else (severity, confidence, matched))
    keywords state.

(** The ventilator loop: [true] at the first keyword found, then
    [break]. *)
Fixpoint scanVentilator (lower : string) (keywords : list string) : bool :=
  match keywords with
  | [] => false
  | keyword :: rest =>
      if includes lower keyword then true else scanVentilator lower rest
  end.

Definition analyzeTriage (complaint : string) : Triage :=
  let lower := toLowerCase complaint in
  let '(severity1, confidence1, matched1) :=
    scanKeywords lower criticalKeywords 3 95 (1, 0, []) in
  let '(severity2, confidence2, matched2) :=
    if negb (severity1 =? 3)
    then scanKeywords lower seriousKeywords 2 85
           (severity1, confidence1, matched1)
    else (severity1, confidence1, matched1) in
  let '(severity3, confidence3, matched3) :=
    if severity2 =? 1
    then scanKeywords lower normalKeywords severity2 75
           (severity2, confidence2, matched2)
    else (severity2, confidence2, matched2) in
  let requiresVentilator :=
    scanVentilator lower
      (criticalVentilatorKeywords ++ seriousVentilatorKeywords) in
  let '(matched, confidence) :=
    if (length matched3 =? 0)%nat then (["general symptoms"], 50)
    else (matched3, confidence3) in
  mkTriage severity3 confidence (take 3 matched) requiresVentilator
    ("AI suggests " +:+
     (if severity3 =? 3 then "CRITICAL"
      else if severity3 =? 2 then "SERIOUS" else "NORMAL") +:+
     " severity").

(** ** Persistence: the two files

    [fs.readFileSync] either returns the text of the file or throws; the
    callers catch the exception and return, so a file is an
    [option string], [None] when it cannot be read. *)


(** [String.prototype.trim]: white space is removed at both ends (the
    ASCII white space characters; the same set [parseInt] skips). *)
Fixpoint trimEnd (s : string) : string :=
  match s with
  | EmptyString => EmptyString
  | String c rest =>
      match trimEnd rest with
      | EmptyString => if CSV.is_space c then EmptyString else String c EmptyString
      | rest' => String c rest'
      end
  end.


(** [s.split(sep)] for a one-character separator. *)
Fixpoint splitLoop (sep : ascii) (s cur : string) : list string :=
  match s with
  | EmptyString => [cur]
  | String c rest =>
      if Ascii.eqb c sep then cur :: splitLoop sep rest EmptyString
      else splitLoop sep rest (CSV.snoc cur c)
  end.

Definition split (sep : ascii) (s : string) : list string :=
  splitLoop sep s EmptyString.
















(** Text without white space. *)
Fixpoint noSpace (s : string) : bool :=
  match s with
  | EmptyString => true
  | String c rest => negb (CSV.is_space c) && noSpace rest
  end.










(* ================================================================== *)
(** * Theorems *)
(* ================================================================== *)

(** Case analysis on every integer comparison of the goal. *)
Ltac case_compare :=
  repeat match goal with
         | |- context [?a <? ?b] => destruct (Z.ltb_spec a b); simpl
         | |- context [?a <=? ?b] => destruct (Z.leb_spec a b); simpl
         | |- context [?a =? ?b] => destruct (Z.eqb_spec a b); simpl
         end.

(** ** The resource pool *)

Lemma perform_bounded (r : Resources.t) (c : Resources.call) :
  Resources.totals_nonneg c -> Resources.bounded r ->
  Resources.bounded (Resources.perform r c).
Proof.
  unfold Resources.bounded.
  destruct r as [tb ub tv uv], c as [ | idx | | idx | b v]; simpl;
    unfold Resources.allocateBed, Resources.releaseBed,
      Resources.allocateVentilator, Resources.releaseVentilator; simpl;
    intros Hc Hr; case_compare; lia.
Qed.

Lemma fold_perform_bounded (cs : list Resources.call) (r : Resources.t) :
  Forall Resources.totals_nonneg cs -> Resources.bounded r ->
  Resources.bounded (fold_left Resources.perform cs r).
Proof.
  revert r. induction cs as [ | c cs IH]; intros r Hcs Hr; simpl; [exact Hr | ].
  inversion Hcs; subst. apply IH; [assumption | ].
  now apply perform_bounded.
Qed.

(** C4, as amended: after any sequence of pool calls in which every
    [setTotals] is given non-negative totals, the counters satisfy
    [0 <= usedBeds <= totalBeds] and
    [0 <= usedVentilators <= totalVentilators]. *)
Theorem pool_bounds_nonneg_totals (cs : list Resources.call) :
  Forall Resources.totals_nonneg cs -> Resources.bounded (Resources.run cs).
Proof.
  intros Hcs. apply fold_perform_bounded; [exact Hcs | ].
  unfold Resources.bounded; simpl; lia.
Qed.

Lemma pool_bounds_nonneg_totals_witness :
  Forall Resources.totals_nonneg sampleCalls /\
  Resources.bounded (Resources.run sampleCalls).
Proof.
  assert (H : Forall Resources.totals_nonneg sampleCalls).
  { unfold sampleCalls. repeat constructor; simpl; lia. }
  split; [exact H | exact (pool_bounds_nonneg_totals sampleCalls H)].
Defined.

(** C4, as stated, fails: a negative total handed to [setTotals], which
    the configure handler passes through unchanged, drives [usedBeds]
    below zero. *)
Lemma pool_bounds_negative_total :
  ~ Resources.bounded (Resources.run [Resources.SetTotals (-1) 0]) /\
  ~ Resources.bounded
      (resources (configure (Some (-1)) (Some 0) None initialState)).
Proof.
  unfold Resources.bounded; simpl. lia.
Qed.

(** ** The allocation pass *)

Lemma assign_assign (b v b' v' : Z) (s s' : string) (r : Patient.t) :
  Patient.assign b' v' s' (Patient.assign b v s r) = Patient.assign b' v' s' r.
Proof. reflexivity. Qed.

(** What one pass does, stated on the loop: it removes a prefix [pre] of
    the queue, appends the ids of [pre] to the ready queue in order, and
    touches only the registry entries of [pre], which it marks Allocated
    with a bed and, for a patient that needs one, a ventilator. *)
Lemma allocateLoop_spec (wq : list WaitingEntry) :
  forall res recs ready wq' res' recs' ready',
    allocateLoop wq res recs ready = (wq', res', recs', ready') ->
    exists pre,
      wq = pre ++ wq' /\
      ready' = ready ++ entryIds pre /\
      (forall i, i ∉ entryIds pre -> recs' !! i = recs !! i) /\
      (forall i,
          recs' !! i = recs !! i \/
          exists r b v e,
            recs !! i = Some r /\
            recs' !! i = Some (Patient.assign b v Allocated r) /\
            b <> -1 /\ e ∈ pre /\ Patient.id (patient e) = i /\
            (Patient.requiresVentilator (patient e) = true -> v <> -1)) /\
      (forall e r,
          e ∈ pre -> recs !! Patient.id (patient e) = Some r ->
          exists b v,
            recs' !! Patient.id (patient e) =
              Some (Patient.assign b v Allocated r)).
Proof.
  induction wq as [ | top rest IH]; intros res recs ready wq' res' recs' ready' H.
  - simpl in H. injection H as <- <- <- <-.
    exists []. simpl. rewrite app_nil_r.
    repeat split; auto.
    intros e r He. inversion He.
  - simpl in H.
    destruct (Resources.allocateBed res) as [res1 bedIndex] eqn:Hbed.
    destruct (bedIndex =? -1) eqn:Hb.
    { injection H as <- <- <- <-. exists []. simpl. rewrite app_nil_r.
      repeat split; auto. intros e r He. inversion He. }
    apply Z.eqb_neq in Hb.
    destruct (if Patient.requiresVentilator (patient top)
              then Resources.allocateVentilator res1 else (res1, -1))
      as [res2 ventIndex] eqn:Hvent.
    destruct (Patient.requiresVentilator (patient top) && (ventIndex =? -1))
      eqn:Hroll.
    { injection H as <- <- <- <-. exists []. simpl. rewrite app_nil_r.
      repeat split; auto. intros e r He. inversion He. }
    assert (Hv : Patient.requiresVentilator (patient top) = true ->
                 ventIndex <> -1).
    { intros Hrv. rewrite Hrv in Hroll. simpl in Hroll.
      now apply Z.eqb_neq in Hroll. }
    set (recs1 :=
           match recs !! Patient.id (patient top) with
           | Some rec =>
               <[Patient.id (patient top) :=
                   Patient.assign bedIndex ventIndex Allocated rec]> recs
           | None => recs
           end) in H.
    assert (Hrecs1 : forall i,
               (recs1 !! i = recs !! i /\
                (i = Patient.id (patient top) -> recs !! i = None)) \/
               exists r, i = Patient.id (patient top) /\ recs !! i = Some r /\
                 recs1 !! i =
                   Some (Patient.assign bedIndex ventIndex Allocated r)).
    { intros i. unfold recs1.
      destruct (recs !! Patient.id (patient top)) as [r0 | ] eqn:Hr0.
      - destruct (decide (i = Patient.id (patient top))) as [-> | Hne].
        + right. exists r0. rewrite lookup_insert_eq. auto.
        + left. rewrite lookup_insert_ne by congruence. split; [auto | tauto].
      - left. split; [reflexivity | intros ->; exact Hr0]. }
    apply IH in H as (pre & Hwq & Hready & Hout & Hkey & Hall).
    exists (top :: pre). simpl. repeat split.
    + now rewrite Hwq.
    + rewrite Hready, <- app_assoc. reflexivity.
    + intros i Hi. rewrite not_elem_of_cons in Hi. destruct Hi as [Hne Hi].
      rewrite (Hout i Hi).
      destruct (Hrecs1 i) as [[E _] | (r & -> & _)]; [exact E | congruence].
    + intros i.
      destruct (Hkey i) as [E | (r1 & b & v & e & Hr1 & Hr' & Hbv & He & Hid & Hvv)].
      * rewrite E.
        destruct (Hrecs1 i) as [[E1 _] | (r & Hi & Hr & E1)]; [now left | ].
        right. exists r, bedIndex, ventIndex, top.
        repeat split; auto. apply list_elem_of_here.
      * right.
        destruct (Hrecs1 i) as [[E1 _] | (r & Hi & Hr & E1)].
        -- exists r1, b, v, e. rewrite <- E1.
           repeat split; auto. now apply list_elem_of_further.
        -- rewrite E1 in Hr1. injection Hr1 as <-.
           exists r, b, v, e. rewrite Hr', assign_assign.
           repeat split; auto. now apply list_elem_of_further.
    + intros e r He Hr. apply elem_of_cons in He as [-> | He].
      * destruct (Hrecs1 (Patient.id (patient top)))
          as [[_ E1] | (r0 & _ & Hr0 & E1)]; [rewrite E1 in Hr; congruence | ].
        rewrite Hr in Hr0. injection Hr0 as <-.
        destruct (Hkey (Patient.id (patient top)))
          as [E | (r1 & b & v & e & Hr1 & Hr' & _)].
        -- exists bedIndex, ventIndex. now rewrite E.
        -- rewrite E1 in Hr1. injection Hr1 as <-.
           exists b, v. now rewrite Hr', assign_assign.
      * destruct (Hrecs1 (Patient.id (patient e)))
          as [[E1 _] | (r0 & _ & Hr0 & E1)].
        -- apply (Hall e r He). now rewrite E1.
        -- rewrite Hr in Hr0. injection Hr0 as <-.
           destruct (Hall e _ He E1) as (b & v & E).
           exists b, v. now rewrite E, assign_assign.
Qed.

(** The same on the scheduler state; the pass leaves the counters, the
    worker flag and the timers alone. *)
Lemma tryAllocateResources_spec (st : State) :
  exists pre,
    waitingQueue st = pre ++ waitingQueue (tryAllocateResources st) /\
    readyQueue (tryAllocateResources st) = readyQueue st ++ entryIds pre /\
    (forall i, i ∉ entryIds pre ->
               patientRecords (tryAllocateResources st) !! i =
               patientRecords st !! i) /\
    (forall i,
        patientRecords (tryAllocateResources st) !! i = patientRecords st !! i \/
        exists r b v e,
          patientRecords st !! i = Some r /\
          patientRecords (tryAllocateResources st) !! i =
            Some (Patient.assign b v Allocated r) /\
          b <> -1 /\ e ∈ pre /\ Patient.id (patient e) = i /\
          (Patient.requiresVentilator (patient e) = true -> v <> -1)) /\
    (forall e r,
        e ∈ pre -> patientRecords st !! Patient.id (patient e) = Some r ->
        exists b v,
          patientRecords (tryAllocateResources st) !! Patient.id (patient e) =
            Some (Patient.assign b v Allocated r)).
Proof.
  unfold tryAllocateResources.
  destruct (allocateLoop (waitingQueue st) (resources st) (patientRecords st)
              (readyQueue st)) as [[[wq' res'] recs'] ready'] eqn:H.
  simpl. exact (allocateLoop_spec _ _ _ _ _ _ _ _ H).
Qed.

Lemma tryAllocateResources_frame (st : State) :
  systemRunning (tryAllocateResources st) = systemRunning st /\
  numberOfDoctors (tryAllocateResources st) = numberOfDoctors st /\
  sequenceCounter (tryAllocateResources st) = sequenceCounter st /\
  nextPatientId (tryAllocateResources st) = nextPatientId st /\
  activeTreatmentTimers (tryAllocateResources st) = activeTreatmentTimers st.
Proof.
  unfold tryAllocateResources.
  destruct (allocateLoop _ _ _ _) as [[[wq' res'] recs'] ready']. simpl. auto.
Qed.

(** C6: head-of-line blocking.  Every pass allocates a prefix [pre] of the
    queue and nothing else: the entries of [pre] leave the queue, their ids
    join the ready queue in queue order, their registry records become
    Allocated, and every other record is untouched.  When bed allocation
    fails for the front patient the prefix is empty: queue, registry and
    ready queue are as before, whoever stands behind. *)
Theorem head_of_line_blocking (st : State) :
  (exists pre,
      waitingQueue st = pre ++ waitingQueue (tryAllocateResources st) /\
      readyQueue (tryAllocateResources st) = readyQueue st ++ entryIds pre /\
      (forall i, i ∉ entryIds pre ->
                 patientRecords (tryAllocateResources st) !! i =
                 patientRecords st !! i) /\
      (forall e r,
          e ∈ pre -> patientRecords st !! Patient.id (patient e) = Some r ->
          exists b v,
            patientRecords (tryAllocateResources st) !! Patient.id (patient e) =
              Some (Patient.assign b v Allocated r))) /\
  (forall top rest,
      waitingQueue st = top :: rest ->
      snd (Resources.allocateBed (resources st)) = -1 ->
      waitingQueue (tryAllocateResources st) = top :: rest /\
      patientRecords (tryAllocateResources st) = patientRecords st /\
      readyQueue (tryAllocateResources st) = readyQueue st).
Proof.
  split.
  - destruct (tryAllocateResources_spec st) as (pre & H1 & H2 & H3 & _ & H5).
    exists pre. auto.
  - intros top rest Hwq Hbed. unfold tryAllocateResources.
    rewrite Hwq. simpl.
    destruct (Resources.allocateBed (resources st)) as [res1 bedIndex].
    simpl in Hbed. subst bedIndex. simpl. auto.
Qed.

(** The rollback step of the pass: the front patient needs a ventilator,
    a bed is granted and the ventilator is refused. *)
Lemma rollback_step (st : State) (top : WaitingEntry)
    (rest : list WaitingEntry) :
  waitingQueue st = top :: rest ->
  Patient.requiresVentilator (patient top) = true ->
  snd (Resources.allocateBed (resources st)) <> -1 ->
  snd (Resources.allocateVentilator (fst (Resources.allocateBed (resources st))))
    = -1 ->
  waitingQueue (tryAllocateResources st) = top :: rest /\
  patientRecords (tryAllocateResources st) = patientRecords st /\
  readyQueue (tryAllocateResources st) = readyQueue st /\
  resources (tryAllocateResources st) =
    Resources.releaseBed (snd (Resources.allocateBed (resources st)))
      (fst (Resources.allocateVentilator
              (fst (Resources.allocateBed (resources st))))).
Proof.
  intros Hwq Hrv Hbed Hvent. unfold tryAllocateResources.
  rewrite Hwq. simpl.
  destruct (Resources.allocateBed (resources st)) as [res1 bedIndex].
  simpl in *. apply Z.eqb_neq in Hbed. rewrite Hbed, Hrv.
  destruct (Resources.allocateVentilator res1) as [res2 ventIndex].
  simpl in *. subst ventIndex. simpl. auto.
Qed.

Lemma rollback_restores (st : State) (top : WaitingEntry)
    (rest : list WaitingEntry) :
  waitingQueue st = top :: rest ->
  Patient.requiresVentilator (patient top) = true ->
  Resources.bounded (resources st) ->
  Resources.usedBeds (resources st) < Resources.totalBeds (resources st) ->
  Resources.totalVentilators (resources st)
    <= Resources.usedVentilators (resources st) ->
  tryAllocateResources st = st.
Proof.
  intros Hwq Hrv [Hb Hv] Hfree Hfull. unfold tryAllocateResources.
  rewrite Hwq. simpl. rewrite Hrv.
  destruct st as [[tb ub tv uv] recs wq ready run_ docs seq next timers].
  simpl in *. unfold Resources.allocateBed, Resources.allocateVentilator,
    Resources.releaseBed. simpl.
  destruct (Z.ltb_spec ub tb); [ | lia]. simpl.
  destruct (Z.eqb_spec (ub + 1) (-1)); [lia | ].
  destruct (Z.ltb_spec uv tv); [lia | ]. simpl.
  destruct (Z.ltb_spec 0 (ub + 1)); [ | lia].
  subst wq. repeat f_equal. lia.
Qed.

(** ** The pool inside the scheduler *)

Lemma allocateLoop_bounded (wq : list WaitingEntry) :
  forall res recs ready wq' res' recs' ready',
    allocateLoop wq res recs ready = (wq', res', recs', ready') ->
    Resources.bounded res -> Resources.bounded res'.
Proof.
  induction wq as [ | top rest IH]; intros res recs ready wq' res' recs' ready' H Hb.
  - simpl in H. now injection H as <- <- <- <-.
  - simpl in H.
    pose proof (perform_bounded res Resources.AllocateBed I Hb) as Hb1.
    simpl in Hb1.
    destruct (Resources.allocateBed res) as [res1 bedIndex]. simpl in Hb1.
    destruct (bedIndex =? -1); [now injection H as <- <- <- <- | ].
    pose proof (perform_bounded res1 Resources.AllocateVentilator I Hb1) as Hb2.
    simpl in Hb2.
    destruct (Patient.requiresVentilator (patient top)).
    + destruct (Resources.allocateVentilator res1) as [res2 ventIndex].
      simpl in *. destruct (ventIndex =? -1).
      * injection H as <- <- <- <-.
        exact (perform_bounded res2 (Resources.ReleaseBed bedIndex) I Hb2).
      * eapply IH; eauto.
    + simpl in H. eapply IH; eauto.
Qed.

Lemma tryAllocateResources_bounded (st : State) :
  Resources.bounded (resources st) ->
  Resources.bounded (resources (tryAllocateResources st)).
Proof.
  unfold tryAllocateResources.
  destruct (allocateLoop (waitingQueue st) (resources st) (patientRecords st)
              (readyQueue st)) as [[[wq' res'] recs'] ready'] eqn:H.
  simpl. exact (allocateLoop_bounded _ _ _ _ _ _ _ _ H).
Qed.

Lemma releaseHeld_bounded (p : Patient.t) (res : Resources.t) :
  Resources.bounded res -> Resources.bounded (releaseHeld p res).
Proof.
  intros Hb. unfold releaseHeld.
  assert (Hb1 : Resources.bounded
                  (if negb (Patient.assignedBed p =? -1)
                   then Resources.releaseBed (Patient.assignedBed p) res
                   else res)).
  { destruct (negb (Patient.assignedBed p =? -1)); [ | exact Hb].
    exact (perform_bounded res (Resources.ReleaseBed _) I Hb). }
  destruct (negb (Patient.assignedVentilator p =? -1)); [ | exact Hb1].
  exact (perform_bounded _ (Resources.ReleaseVentilator _) I Hb1).
Qed.

Lemma step_bounded (st : State) (o : Op) :
  configuredNonneg o -> Resources.bounded (resources st) ->
  Resources.bounded (resources (step st o)).
Proof.
  intros Ho Hb.
  destruct o as [n a c s v now | id | b v d | | | | pid]; simpl.
  - unfold registerPatient. simpl. now apply tryAllocateResources_bounded.
  - unfold dischargePatient.
    destruct (patientRecords st !! id); simpl; [ | exact Hb].
    apply tryAllocateResources_bounded. simpl. now apply releaseHeld_bounded.
  - exact (perform_bounded (resources st) (Resources.SetTotals _ _) Ho Hb).
  - unfold startDoctorWorkers. destruct (systemRunning st); exact Hb.
  - unfold stopDoctorWorkers. destruct (systemRunning st); exact Hb.
  - unfold doctorPick. destruct (systemRunning st); simpl; [ | exact Hb].
    destruct (readyQueue st); exact Hb.
  - unfold treatmentDone.
    destruct (decide (pid ∈ activeTreatmentTimers st)); [ | exact Hb].
    destruct (patientRecords st !! pid); [ | exact Hb].
    simpl. apply tryAllocateResources_bounded. simpl.
    now apply releaseHeld_bounded.
Qed.

(** The pool of the scheduler stays within its bounds along every run
    whose configuration requests carry non-negative totals. *)
Lemma run_bounded (ops : list Op) :
  Forall configuredNonneg ops -> Resources.bounded (resources (run ops)).
Proof.
  induction ops as [ | o ops IH] using rev_ind; intros H.
  - unfold Resources.bounded. simpl. lia.
  - apply Forall_app in H as [Hops Ho]. inversion Ho; subst.
    unfold run. rewrite fold_left_app. simpl.
    apply step_bounded; [assumption | now apply IH].
Qed.

(** ** Sorting the admission queue *)

Lemma notAfter_trans (a b c : WaitingEntry) :
  notAfter a b -> notAfter b c -> notAfter a c.
Proof.
  unfold notAfter, compareWaiting. case_compare; lia.
Qed.

Lemma notAfter_total (a b : WaitingEntry) :
  ~ notAfter a b -> notAfter b a.
Proof.
  unfold notAfter, compareWaiting. case_compare; lia.
Qed.

Lemma notAfter_comparable (a b : WaitingEntry) :
  comparable a b -> notAfter a b -> admittedBefore a b.
Proof.
  unfold comparable, admittedBefore, notAfter, compareWaiting.
  destruct (Z.eqb_spec (Patient.severity (patient a))
              (Patient.severity (patient b))); simpl; lia.
Qed.

Lemma after_comparable (a b : WaitingEntry) :
  comparable a b -> ~ notAfter a b -> admittedBefore b a.
Proof.
  unfold comparable, admittedBefore, notAfter, compareWaiting.
  destruct (Z.eqb_spec (Patient.severity (patient a))
              (Patient.severity (patient b))); simpl; lia.
Qed.

Lemma admittedBefore_trans (a b c : WaitingEntry) :
  admittedBefore a b -> admittedBefore b c -> admittedBefore a c.
Proof. unfold admittedBefore. lia. Qed.

Lemma sortInsert_perm {A : Type} (cmp : A -> A -> Z) (x : A) (l : list A) :
  Permutation (x :: l) (sortInsert cmp x l).
Proof.
  induction l as [ | y l IH]; simpl; [reflexivity | ].
  destruct (cmp x y <=? 0); [reflexivity | ].
  rewrite perm_swap. now apply perm_skip.
Qed.

Lemma arraySort_perm {A : Type} (cmp : A -> A -> Z) (l : list A) :
  Permutation l (arraySort cmp l).
Proof.
  induction l as [ | x l IH]; simpl; [reflexivity | ].
  rewrite <- sortInsert_perm. now apply perm_skip.
Qed.

(** The sort puts any queue in the order of its comparator. *)
Lemma sortInsert_notAfter (x : WaitingEntry) (l : list WaitingEntry) :
  StronglySorted notAfter l ->
  StronglySorted notAfter (sortInsert compareWaiting x l).
Proof.
  induction 1 as [ | y l Hl IH Hy]; simpl.
  - repeat constructor.
  - destruct (Z.leb_spec (compareWaiting x y) 0) as [Hxy | Hxy].
    + constructor; [now constructor | ].
      constructor; [exact Hxy | ].
      eapply Forall_impl; [exact Hy | ].
      intros z Hz. simpl in Hz. eapply notAfter_trans; eauto.
    + constructor; [exact IH | ].
      rewrite <- sortInsert_perm. constructor; [ | exact Hy].
      apply notAfter_total. unfold notAfter. lia.
Qed.

Lemma sortWaitingQueue_notAfter (wq : list WaitingEntry) :
  StronglySorted notAfter (sortWaitingQueue wq).
Proof.
  unfold sortWaitingQueue. induction wq as [ | x wq IH]; simpl.
  - constructor.
  - now apply sortInsert_notAfter.
Qed.

(** With pairwise distinct keys the order is the strict admission order. *)
Lemma sortInsert_admitted (x : WaitingEntry) (l : list WaitingEntry) :
  Forall (comparable x) l ->
  StronglySorted admittedBefore l ->
  StronglySorted admittedBefore (sortInsert compareWaiting x l).
Proof.
  intros Hx Hl. revert Hx.
  induction Hl as [ | y l Hl IH Hy]; simpl; intros Hx.
  - repeat constructor.
  - apply Forall_cons in Hx as [Hxy Hx].
    destruct (Z.leb_spec (compareWaiting x y) 0) as [Hle | Hgt].
    + assert (Hb : admittedBefore x y) by now apply notAfter_comparable.
      constructor; [now constructor | ].
      constructor; [exact Hb | ].
      eapply Forall_impl; [exact Hy | ].
      intros z Hz. simpl in Hz. eapply admittedBefore_trans; eauto.
    + constructor; [now apply IH | ].
      rewrite <- sortInsert_perm. constructor; [ | exact Hy].
      apply after_comparable; [exact Hxy | unfold notAfter; lia].
Qed.

Lemma arraySort_admitted (l : list WaitingEntry) :
  StronglySorted comparable l ->
  StronglySorted admittedBefore (arraySort compareWaiting l).
Proof.
  induction 1 as [ | x l Hl IH Hx]; simpl.
  - constructor.
  - apply sortInsert_admitted; [ | exact IH].
    now rewrite <- arraySort_perm.
Qed.

Lemma StronglySorted_snoc {A : Type} (R : A -> A -> Prop) (l : list A) (x : A) :
  StronglySorted R l -> Forall (fun y => R y x) l ->
  StronglySorted R (l ++ [x]).
Proof.
  induction 1 as [ | y l Hl IH Hy]; simpl; intros Hx.
  - repeat constructor.
  - apply Forall_cons in Hx as [Hyx Hx].
    constructor; [now apply IH | ].
    apply Forall_app. split; [exact Hy | now constructor].
Qed.

Lemma StronglySorted_weaken {A : Type} (R R' : A -> A -> Prop) (l : list A) :
  (forall a b, R a b -> R' a b) -> StronglySorted R l -> StronglySorted R' l.
Proof.
  intros HR. induction 1 as [ | y l Hl IH Hy]; constructor; [exact IH | ].
  eapply Forall_impl; [exact Hy | ]. intros z Hz. now apply HR.
Qed.

Lemma StronglySorted_suffix {A : Type} (R : A -> A -> Prop) (pre l : list A) :
  StronglySorted R (pre ++ l) -> StronglySorted R l.
Proof.
  induction pre as [ | x pre IH]; simpl; [auto | ].
  intros H. inversion H; subst. now apply IH.
Qed.

(** Registration keeps [queueOrdered]: the new entry carries the current
    counter as its sequence number. *)
Lemma queueOrdered_register (wq : list WaitingEntry) (counter : Z)
    (p : Patient.t) :
  queueOrdered wq counter ->
  queueOrdered (sortWaitingQueue (wq ++ [mkEntry p counter])) (counter + 1).
Proof.
  intros [Hs Hc]. split.
  - apply arraySort_admitted. apply StronglySorted_snoc.
    + eapply StronglySorted_weaken; [ | exact Hs].
      intros a b Hab. now left.
    + eapply Forall_impl; [exact Hc | ]. intros e He. simpl in He.
      unfold comparable, admittedBefore. simpl. lia.
  - unfold sortWaitingQueue. rewrite <- arraySort_perm.
    apply Forall_app. split.
    + eapply Forall_impl; [exact Hc | ]. intros e He. simpl in He. lia.
    + repeat constructor. simpl. lia.
Qed.

Lemma queueOrdered_suffix (pre wq : list WaitingEntry) (counter : Z) :
  queueOrdered (pre ++ wq) counter -> queueOrdered wq counter.
Proof.
  intros [Hs Hc]. split.
  - eapply StronglySorted_suffix; eauto.
  - apply Forall_app in Hc. tauto.
Qed.

(** ** Invariants along runs *)

Lemma run_snoc (ops : list Op) (o : Op) :
  run (ops ++ [o]) = step (run ops) o.
Proof. unfold run. now rewrite fold_left_app. Qed.

Lemma run_invariant (P : State -> Prop) :
  P initialState ->
  (forall st o, P st -> P (step st o)) ->
  forall ops, P (run ops).
Proof.
  intros Hinit Hstep ops. induction ops as [ | o ops IH] using rev_ind.
  - exact Hinit.
  - rewrite run_snoc. now apply Hstep.
Qed.

Lemma tryAllocateResources_ordered (st : State) :
  ordered st -> ordered (tryAllocateResources st).
Proof.
  unfold ordered. intros H.
  destruct (tryAllocateResources_spec st) as (pre & Hwq & _).
  destruct (tryAllocateResources_frame st) as (_ & _ & -> & _).
  rewrite Hwq in H. eapply queueOrdered_suffix; eauto.
Qed.

Lemma step_ordered (st : State) (o : Op) : ordered st -> ordered (step st o).
Proof.
  intros H. destruct o as [n a c s v now | id | b v d | | | | pid]; simpl.
  - unfold registerPatient. simpl. apply tryAllocateResources_ordered.
    unfold ordered. simpl. now apply queueOrdered_register.
  - unfold dischargePatient.
    destruct (patientRecords st !! id); simpl; [ | exact H].
    apply tryAllocateResources_ordered. exact H.
  - exact H.
  - unfold startDoctorWorkers. destruct (systemRunning st); exact H.
  - unfold stopDoctorWorkers. destruct (systemRunning st); exact H.
  - unfold doctorPick.
    destruct (systemRunning st); simpl; [ | exact H].
    destruct (readyQueue st); [exact H | exact H].
  - unfold treatmentDone.
    destruct (decide (pid ∈ activeTreatmentTimers st)); [ | exact H].
    destruct (patientRecords st !! pid); [ | exact H].
    apply (tryAllocateResources_ordered
             (mkState _ _ (waitingQueue st) _ _ _ (sequenceCounter st) _ _)).
    exact H.
Qed.

(** C7: in every state the scheduler reaches from its initial state, the
    admission queue is in admission order: severity descending, and within
    one severity the sequence numbers strictly ascending (first come, first
    admitted).  The re-sort of registration puts any queue, whatever it
    held, in the order of the comparator; registration and the allocation
    pass each keep the admission order. *)
Theorem waiting_queue_ordered :
  (forall ops : list Op,
      StronglySorted admittedBefore (waitingQueue (run ops))) /\
  (forall wq : list WaitingEntry,
      StronglySorted notAfter (sortWaitingQueue wq) /\
      Permutation wq (sortWaitingQueue wq)) /\
  (forall (st : State) name age complaint severity requiresVentilator now,
      ordered st ->
      ordered
        (fst (registerPatient name age complaint severity requiresVentilator
                now st))) /\
  (forall st : State,
      StronglySorted admittedBefore (waitingQueue st) ->
      StronglySorted admittedBefore (waitingQueue (tryAllocateResources st))).
Proof.
  split; [ | split; [ | split]].
  - intros ops.
    assert (H : ordered (run ops)).
    { apply run_invariant; [ | exact step_ordered].
      split; constructor. }
    exact (proj1 H).
  - intros wq. split; [apply sortWaitingQueue_notAfter | apply arraySort_perm].
  - intros st name age complaint severity requiresVentilator now H.
    exact (step_ordered st
             (Register name age complaint severity requiresVentilator now) H).
  - intros st H.
    destruct (tryAllocateResources_spec st) as (pre & Hwq & _).
    rewrite Hwq in H. eapply StronglySorted_suffix; eauto.
Qed.

Lemma waiting_queue_ordered_witness :
  ordered
    (fst (registerPatient "Dev" 52 "fracture" 2 false "2024-05-01 09:02:00"
            (run fullRun))) /\
  StronglySorted admittedBefore
    (waitingQueue (tryAllocateResources (run fullRun))).
Proof.
  assert (Hwq : waitingQueue (run fullRun) = fullTop :: fullRest).
  { vm_compute. reflexivity. }
  assert (Hseq : sequenceCounter (run fullRun) = 2).
  { vm_compute. reflexivity. }
  assert (Hsorted : StronglySorted admittedBefore (waitingQueue (run fullRun))).
  { rewrite Hwq. unfold fullTop, fullRest, admittedBefore.
    repeat constructor; simpl; lia. }
  split.
  - apply (proj1 (proj2 (proj2 waiting_queue_ordered))).
    split; [exact Hsorted | ].
    rewrite Hwq, Hseq. unfold fullTop, fullRest.
    repeat constructor; simpl; lia.
  - apply (proj2 (proj2 (proj2 waiting_queue_ordered))). exact Hsorted.
Defined.

Lemma sameIdentity_refl (r : Patient.t) : sameIdentity r r.
Proof. repeat split. Qed.

Lemma sameIdentity_trans (a b c : Patient.t) :
  sameIdentity a b -> sameIdentity b c -> sameIdentity a c.
Proof. unfold sameIdentity. intuition congruence. Qed.

Lemma mirrored_update (wq : list WaitingEntry) (recs : gmap Z Patient.t)
    (next i : Z) (r r' : Patient.t) :
  mirrored wq recs next -> recs !! i = Some r -> sameIdentity r r' ->
  mirrored wq (<[i := r']> recs) next.
Proof.
  intros H Hr Hid e He.
  destruct (H e He) as (Hlt & Hseq & r0 & Hr0 & Hid0).
  repeat split; auto.
  destruct (decide (i = Patient.id (patient e))) as [-> | Hne].
  - exists r'. rewrite lookup_insert_eq. split; [reflexivity | ].
    rewrite Hr in Hr0. injection Hr0 as <-.
    eapply sameIdentity_trans; eauto.
  - exists r0. now rewrite lookup_insert_ne.
Qed.

Lemma allocatedComplete_update (recs : gmap Z Patient.t) (i : Z)
    (r' : Patient.t) :
  allocatedComplete recs -> Patient.status r' <> Allocated ->
  allocatedComplete (<[i := r']> recs).
Proof.
  intros H Hs j p Hp Hst.
  destruct (decide (i = j)) as [-> | Hne].
  - rewrite lookup_insert_eq in Hp. injection Hp as <-. contradiction.
  - rewrite lookup_insert_ne in Hp by exact Hne. eauto.
Qed.

Lemma tryAllocateResources_consistent (st : State) :
  consistent st -> consistent (tryAllocateResources st).
Proof.
  intros [Hm Hc]. unfold consistent.
  destruct (tryAllocateResources_spec st) as (pre & Hwq & _ & _ & Hkey & _).
  destruct (tryAllocateResources_frame st) as (_ & _ & _ & -> & _).
  split.
  - intros e He.
    assert (He' : e ∈ waitingQueue st).
    { rewrite Hwq. apply elem_of_app. now right. }
    destruct (Hm e He') as (Hlt & Hseq & r & Hr & Hid).
    repeat split; auto.
    destruct (Hkey (Patient.id (patient e)))
      as [E | (r1 & b & v & e0 & Hr1 & Hr' & _)].
    + exists r. now rewrite E.
    + rewrite Hr in Hr1. injection Hr1 as <-.
      eexists. split; [exact Hr' | ]. exact Hid.
  - intros i p Hp Hst.
    destruct (Hkey i) as [E | (r1 & b & v & e0 & Hr1 & Hr' & Hb & He0 & Hi & Hv)].
    + rewrite E in Hp. eauto.
    + rewrite Hr' in Hp. injection Hp as <-.
      split; [exact Hb | ]. simpl. intros Hrv. apply Hv.
      assert (He' : e0 ∈ waitingQueue st).
      { rewrite Hwq. apply elem_of_app. now left. }
      destruct (Hm e0 He') as (_ & _ & r & Hr & Hid).
      rewrite Hi, Hr1 in Hr. injection Hr as <-.
      destruct Hid as (_ & _ & Hrv' & _). congruence.
Qed.

Lemma step_consistent (st : State) (o : Op) :
  consistent st -> consistent (step st o).
Proof.
  intros [Hm Hc].
  destruct o as [n a c s v now | id | b v d | | | | pid]; simpl.
  - unfold registerPatient. simpl. apply tryAllocateResources_consistent.
    split; simpl.
    + intros e He. unfold sortWaitingQueue in He.
      rewrite <- arraySort_perm in He.
      apply elem_of_app in He as [He | He].
      * destruct (Hm e He) as (Hlt & Hseq & r & Hr & Hid).
        repeat split; [lia | exact Hseq | ].
        exists r. rewrite lookup_insert_ne by lia. auto.
      * apply list_elem_of_singleton in He. subst e. simpl.
        repeat split; [lia | ].
        eexists. rewrite lookup_insert_eq. split; [reflexivity | ].
        apply sameIdentity_refl.
    + apply allocatedComplete_update; [exact Hc | ]. simpl. discriminate.
  - unfold dischargePatient.
    destruct (patientRecords st !! id) as [p | ] eqn:Hp; simpl;
      [ | split; assumption].
    apply tryAllocateResources_consistent. split; simpl.
    + eapply mirrored_update; eauto. repeat split.
    + apply allocatedComplete_update; [exact Hc | ]. simpl. discriminate.
  - split; assumption.
  - unfold startDoctorWorkers. destruct (systemRunning st); split; assumption.
  - unfold stopDoctorWorkers. destruct (systemRunning st); split; assumption.
  - unfold doctorPick.
    destruct (systemRunning st); simpl; [ | split; assumption].
    destruct (readyQueue st) as [ | pid rest]; [split; assumption | ].
    destruct (pid =? 0); [split; assumption | ].
    destruct (patientRecords st !! pid) as [p | ] eqn:Hp;
      [ | split; assumption].
    split; simpl.
    + eapply mirrored_update; eauto. repeat split.
    + apply allocatedComplete_update; [exact Hc | ]. simpl. discriminate.
  - unfold treatmentDone.
    destruct (decide (pid ∈ activeTreatmentTimers st)); [ | split; assumption].
    destruct (patientRecords st !! pid) as [p | ] eqn:Hp;
      [ | split; assumption].
    match goal with
    | |- consistent (mkState _ _ _ _ _ _ _ _ (activeTreatmentTimers ?s ∖ _)) =>
        assert (H : consistent s)
    end.
    { apply tryAllocateResources_consistent. split; simpl.
      - eapply mirrored_update; eauto. repeat split.
      - apply allocatedComplete_update; [exact Hc | ]. simpl. discriminate. }
    exact H.
Qed.

Lemma run_consistent (ops : list Op) : consistent (run ops).
Proof.
  apply run_invariant; [ | exact step_consistent].
  split.
  - intros e He. inversion He.
  - intros i p Hp. simpl in Hp. rewrite lookup_empty in Hp. discriminate.
Qed.

(** The waiting entries and the registry agree on every field the code
    reads through an entry. *)
Lemma entries_mirror_registry (ops : list Op) (e : WaitingEntry) :
  e ∈ waitingQueue (run ops) ->
  exists r, patientRecords (run ops) !! Patient.id (patient e) = Some r /\
            sameIdentity (patient e) r.
Proof.
  intros He. destruct (run_consistent ops) as [Hm _].
  destruct (Hm e He) as (_ & _ & r & Hr & Hid). eauto.
Qed.

(** C5: all-or-nothing allocation.  When the front patient needs a
    ventilator, a bed is granted and the ventilator is refused, the pass
    stops: the queue is exactly as before with the patient at its front,
    registry and ready queue are untouched, and [releaseBed] is applied to
    the pool ([rollback_step]); on a pool within its bounds the whole state
    is as before the pass.  Consequently, in every state of every run, an
    Allocated record that needs a ventilator holds a bed and a
    ventilator. *)
Theorem rollback_all_or_nothing :
  (forall (st : State) (top : WaitingEntry) (rest : list WaitingEntry),
      waitingQueue st = top :: rest ->
      Patient.requiresVentilator (patient top) = true ->
      snd (Resources.allocateBed (resources st)) <> -1 ->
      snd (Resources.allocateVentilator
             (fst (Resources.allocateBed (resources st)))) = -1 ->
      waitingQueue (tryAllocateResources st) = top :: rest /\
      patientRecords (tryAllocateResources st) = patientRecords st /\
      readyQueue (tryAllocateResources st) = readyQueue st /\
      resources (tryAllocateResources st) =
        Resources.releaseBed (snd (Resources.allocateBed (resources st)))
          (fst (Resources.allocateVentilator
                  (fst (Resources.allocateBed (resources st))))) /\
      (Resources.bounded (resources st) -> tryAllocateResources st = st)) /\
  (forall (ops : list Op) (i : Z) (p : Patient.t),
      patientRecords (run ops) !! i = Some p ->
      Patient.status p = Allocated ->
      Patient.requiresVentilator p = true ->
      holdsBed p /\ holdsVentilator p).
Proof.
  split.
  - intros st top rest Hwq Hrv Hbed Hvent.
    destruct (rollback_step st top rest Hwq Hrv Hbed Hvent)
      as (H1 & H2 & H3 & H4).
    repeat split; auto.
    intros Hb. apply (rollback_restores st top rest Hwq Hrv Hb).
    + unfold Resources.allocateBed in Hbed.
      destruct (Z.ltb_spec (Resources.usedBeds (resources st))
                  (Resources.totalBeds (resources st))); [assumption | ].
      simpl in Hbed. congruence.
    + destruct Hb as [Hb1 Hb2].
      unfold Resources.allocateBed, Resources.allocateVentilator in Hvent.
      destruct (Resources.usedBeds (resources st)
                <? Resources.totalBeds (resources st)); simpl in Hvent;
        destruct (Z.ltb_spec (Resources.usedVentilators (resources st))
                    (Resources.totalVentilators (resources st)));
        simpl in Hvent; lia.
  - intros ops i p Hp Hst Hrv.
    destruct (run_consistent ops) as [_ Hc].
    destruct (Hc i p Hp Hst) as [Hb Hv]. auto.
Qed.

(** ** Discharge *)

(** C9: discharging an id that is not in the registry returns [false] and
    leaves the whole state (registry, both queues, the four counters and
    everything else) as it was; discharging a registered id returns
    [true]. *)
Theorem discharge_unknown_id (st : State) (id : Z) :
  (patientRecords st !! id = None -> dischargePatient id st = (st, false)) /\
  (is_Some (patientRecords st !! id) -> snd (dischargePatient id st) = true).
Proof.
  unfold dischargePatient. split.
  - intros ->. reflexivity.
  - intros [p ->]. reflexivity.
Qed.

Lemma discharge_unknown_id_witness :
  dischargePatient 7 (run sharedBedRun) = (run sharedBedRun, false) /\
  snd (dischargePatient 2 (run sharedBedRun)) = true.
Proof.
  split.
  - apply (proj1 (discharge_unknown_id (run sharedBedRun) 7)).
    vm_compute. reflexivity.
  - apply (proj2 (discharge_unknown_id (run sharedBedRun) 2)).
    vm_compute. eexists. reflexivity.
Defined.

(** C1 fails on the code: [dischargePatient] never touches the waiting
    queue.  Discharging the waiting patient 1 returns [true] and leaves its
    entry in the admission queue; when a bed has been configured in the
    meantime, the allocation pass at the end of the very same call
    allocates the patient again. *)
Theorem discharge_keeps_waiting_entry :
  (snd (dischargePatient 1 (run waitingRun)) = true /\
   entryIds (waitingQueue (fst (dischargePatient 1 (run waitingRun)))) = [1] /\
   Patient.status <$> patientRecords (fst (dischargePatient 1 (run waitingRun))) !! 1
     = Some Discharged) /\
  (snd (dischargePatient 1 (run lateBedRun)) = true /\
   Patient.status <$> patientRecords (fst (dischargePatient 1 (run lateBedRun))) !! 1
     = Some Allocated /\
   Patient.assignedBed <$> patientRecords (fst (dischargePatient 1 (run lateBedRun))) !! 1
     = Some 1 /\
   readyQueue (fst (dischargePatient 1 (run lateBedRun))) = [1]).
Proof. vm_compute. repeat split; reflexivity. Qed.

(** C2 fails on the code: a Discharged record does not stay Discharged.
    Patient 2 is discharged while waiting and keeps its queue entry; when
    patient 1 leaves, the pass allocates patient 2.  Patient 1 of the
    second run is discharged while in the ready queue and keeps its place
    there; the next worker puts it In-Treatment. *)
Theorem discharged_not_terminal :
  (Patient.status <$> patientRecords (run dischargedWaitingRun) !! 2
     = Some Discharged /\
   Patient.status <$>
     patientRecords (step (run dischargedWaitingRun) (Discharge 1)) !! 2
     = Some Allocated /\
   ~ forward Discharged Allocated) /\
  (Patient.status <$> patientRecords (run dischargedReadyRun) !! 1
     = Some Discharged /\
   Patient.status <$>
     patientRecords (step (run dischargedReadyRun) WorkerPick) !! 1
     = Some InTreatment /\
   ~ forward Discharged InTreatment).
Proof.
  repeat split; try (vm_compute; reflexivity); vm_compute; lia.
Qed.

(** C3 fails on the code: the handle is the value of the used counter.
    After patient 1 has left, patient 3 is handed the number patient 2
    still holds. *)
Theorem bed_handles_collide :
  exists p q : Patient.t,
    patientRecords (run sharedBedRun) !! 2 = Some p /\
    patientRecords (run sharedBedRun) !! 3 = Some q /\
    Patient.status p = Allocated /\ Patient.status q = Allocated /\
    holdsBed p /\ holdsBed q /\
    Patient.assignedBed p = Patient.assignedBed q.
Proof.
  eexists. eexists.
  split; [vm_compute; reflexivity | ].
  split; [vm_compute; reflexivity | ].
  unfold holdsBed. simpl. repeat split; discriminate.
Qed.

(** ** Prescriptions *)

Lemma generatePrescription_table (p : Patient.t) :
  generatePrescription p =
    baseRegimen (severityToString (Patient.severity p))
    +:+ ventilatorSuffix (Patient.requiresVentilator p).
Proof.
  unfold generatePrescription, severityToString, ventilatorSuffix.
  destruct (3 <=? Patient.severity p);
    [ | destruct (Patient.severity p =? 2)];
    destruct (Patient.requiresVentilator p); reflexivity.
Qed.

(** C8: the prescription a worker writes at the end of a treatment is the
    base regimen of the patient's severity tier followed by the ventilator
    suffix exactly when the patient requires a ventilator; it depends on
    the severity and on that flag only. *)
Theorem worker_prescription :
  (forall p q : Patient.t,
      Patient.severity p = Patient.severity q ->
      Patient.requiresVentilator p = Patient.requiresVentilator q ->
      generatePrescription p = generatePrescription q) /\
  (forall (st : State) (pid : Z) (rec : Patient.t),
      pid ∈ activeTreatmentTimers st ->
      patientRecords st !! pid = Some rec ->
      exists rec',
        patientRecords (treatmentDone pid st) !! pid = Some rec' /\
        Patient.prescription rec' =
          baseRegimen (severityToString (Patient.severity rec))
          +:+ (if Patient.requiresVentilator rec
               then " | Ventilator Support Required" else "")).
Proof.
  split.
  - intros p q Hs Hv. unfold generatePrescription. now rewrite Hs, Hv.
  - intros st pid rec Hin Hrec. unfold treatmentDone.
    destruct (decide (pid ∈ activeTreatmentTimers st)) as [_ | Hn];
      [ | contradiction].
    rewrite Hrec. simpl.
    match goal with
    | |- context [patientRecords (tryAllocateResources ?s) !! pid] =>
        destruct (tryAllocateResources_spec s) as (pre & _ & _ & _ & Hkey & _)
    end.
    destruct (Hkey pid) as [E | (r1 & b & v & e & Hr1 & Hr' & _)].
    + eexists. split.
      * rewrite E. simpl. apply lookup_insert_eq.
      * simpl. apply generatePrescription_table.
    + eexists. split; [exact Hr' | ].
      simpl in Hr1. rewrite lookup_insert_eq in Hr1. injection Hr1 as <-.
      simpl. apply generatePrescription_table.
Qed.

Lemma worker_prescription_witness :
  generatePrescription quotedPatient =
    generatePrescription
      (Patient.mk 9 "Eli" 27 "rash" 1 Discharged 3 (-1) false 5
         "2024-05-02 11:30:00" 35000 "none yet") /\
  exists rec',
    patientRecords (treatmentDone 1 (run treatedRun)) !! 1 = Some rec' /\
    Patient.prescription rec' =
      "ICU Medications + Broad-Spectrum Antibiotics | Ventilator Support Required".
Proof.
  split.
  - apply (proj1 worker_prescription); reflexivity.
  - assert (Hin : 1 ∈ activeTreatmentTimers (run treatedRun)).
    { vm_compute. reflexivity. }
    assert (Hrec : patientRecords (run treatedRun) !! 1 =
                   Some (Patient.mk 1 "Asha" 61 "not breathing" 3 InTreatment
                           1 1 true 0 "2024-05-01 09:00:00" 45000 "")).
    { vm_compute. reflexivity. }
    exact (proj2 worker_prescription (run treatedRun) 1 _ Hin Hrec).
Defined.

(** ** Examples of the allocation theorems *)

Lemma head_of_line_blocking_witness :
  waitingQueue (run fullRun) = fullTop :: fullRest /\
  waitingQueue (tryAllocateResources (run fullRun)) = fullTop :: fullRest /\
  patientRecords (tryAllocateResources (run fullRun)) =
    patientRecords (run fullRun) /\
  readyQueue (tryAllocateResources (run fullRun)) = readyQueue (run fullRun).
Proof.
  assert (Hwq : waitingQueue (run fullRun) = fullTop :: fullRest).
  { vm_compute. reflexivity. }
  assert (Hbed : snd (Resources.allocateBed (resources (run fullRun))) = -1).
  { vm_compute. reflexivity. }
  split; [exact Hwq | ].
  exact (proj2 (head_of_line_blocking (run fullRun)) _ _ Hwq Hbed).
Defined.

Lemma rollback_all_or_nothing_witness :
  (waitingQueue (run blockedRun) = [blockedTop] /\
   tryAllocateResources (run blockedRun) = run blockedRun) /\
  (holdsBed
     (Patient.mk 1 "Asha" 61 "not breathing" 3 Allocated 1 1 true 0
        "2024-05-01 09:00:00" 45000 "") /\
   holdsVentilator
     (Patient.mk 1 "Asha" 61 "not breathing" 3 Allocated 1 1 true 0
        "2024-05-01 09:00:00" 45000 "")).
Proof.
  assert (Hwq : waitingQueue (run blockedRun) = [blockedTop]).
  { vm_compute. reflexivity. }
  split; [split; [exact Hwq | ] | ].
  - apply (proj1 rollback_all_or_nothing (run blockedRun) blockedTop [] Hwq).
    + reflexivity.
    + vm_compute. discriminate.
    + vm_compute. reflexivity.
    + unfold Resources.bounded. vm_compute. repeat split; discriminate.
  - apply (proj2 rollback_all_or_nothing ventilatedRun 1).
    + vm_compute. reflexivity.
    + reflexivity.
    + reflexivity.
Defined.

(** ** The CSV codec *)

Lemma append_cons (x : ascii) (a b : string) :
  String x a +:+ b = String x (a +:+ b).
Proof. reflexivity. Qed.

Lemma append_nil_l (b : string) : EmptyString +:+ b = b.
Proof. reflexivity. Qed.

Lemma append_assoc (a b c : string) : (a +:+ b) +:+ c = a +:+ (b +:+ c).
Proof.
  induction a as [ | x a IH]; [reflexivity | ].
  now rewrite !append_cons, IH.
Qed.

Lemma append_nil_r (a : string) : a +:+ EmptyString = a.
Proof.
  induction a as [ | x a IH]; [reflexivity | ].
  now rewrite append_cons, IH.
Qed.

Lemma snoc_append (cur : string) (c : ascii) (s : string) :
  CSV.snoc cur c +:+ s = cur +:+ String c s.
Proof. unfold CSV.snoc. now rewrite append_assoc. Qed.

(** *** Reading numbers back *)

Lemma readDigits_uint (d : Decimal.uint) :
  forall (acc : option Z) (rest : string),
    (forall c r, rest = String c r -> CSV.digit_of c = None) ->
    CSV.readDigits (NilEmpty.string_of_uint d +:+ rest) acc =
      match d with
      | Decimal.Nil => acc
      | _ => Some (uintValue d (default 0 acc))
      end.
Proof.
  induction d; intros acc rest Hrest; simpl NilEmpty.string_of_uint;
    rewrite ?append_cons, ?append_nil_l; simpl CSV.readDigits;
    try (rewrite IHd by exact Hrest; destruct d; reflexivity).
  destruct rest as [ | c r]; [reflexivity | ].
  simpl. now rewrite (Hrest c r eq_refl).
Qed.

Lemma uintValue_pos (d : Decimal.uint) :
  forall acc : positive,
    uintValue d (Z.pos acc) = Z.pos (Pos.of_uint_acc d acc).
Proof.
  induction d; intros acc; simpl; [reflexivity | ..];
    rewrite <- IHd; f_equal; lia.
Qed.

Lemma uintValue_zero (d : Decimal.uint) : uintValue d 0 = Z.of_uint d.
Proof.
  unfold Z.of_uint.
  induction d; simpl; try reflexivity; try exact IHd;
    apply (uintValue_pos d).
Qed.

Lemma parseInt_numberToString (n : Z) :
  CSV.parseInt (CSV.numberToString n) = Some n.
Proof.
  unfold CSV.numberToString.
  assert (Hnil : forall p, exists d,
             NilZero.string_of_uint (Pos.to_uint p) =
               NilEmpty.string_of_uint d +:+ EmptyString /\
             d <> Decimal.Nil /\ Z.of_uint d = Z.pos p).
  { intros p. exists (Pos.to_uint p).
    pose proof (DecimalPos.Unsigned.to_uint_nonnil p) as Hn.
    repeat split; [ | exact Hn | ].
    - rewrite append_nil_r. destruct (Pos.to_uint p); [congruence | reflexivity ..].
    - unfold Z.of_uint. now rewrite DecimalPos.Unsigned.of_to. }
  assert (Hread : forall d, d <> Decimal.Nil ->
             CSV.readDigits (NilEmpty.string_of_uint d +:+ EmptyString) None =
               Some (Z.of_uint d)).
  { intros d Hd. rewrite readDigits_uint by discriminate.
    rewrite <- uintValue_zero. destruct d; [congruence | reflexivity ..]. }
  destruct n as [ | p | p]; [reflexivity | | ]; simpl.
  - destruct (Hnil p) as (d & -> & Hd & Hv).
    unfold CSV.parseInt.
    assert (Hskip : CSV.skipSpaces (NilEmpty.string_of_uint d +:+ EmptyString)
                    = NilEmpty.string_of_uint d +:+ EmptyString).
    { destruct d; [congruence | reflexivity ..]. }
    rewrite Hskip.
    rewrite <- Hv, <- (Hread d Hd).
    destruct d; [congruence | reflexivity ..].
  - destruct (Hnil p) as (d & -> & Hd & Hv).
    unfold CSV.parseInt. simpl.
    rewrite (Hread d Hd), Hv. reflexivity.
Qed.

(** ** The CSV codec *)

(** *** Reading fields back *)

Lemma is_dquote_eq (c : ascii) : CSV.is_dquote c = true -> c = CSV.dquote.
Proof. unfold CSV.is_dquote. apply Ascii.eqb_eq. Qed.

Lemma parse_plain (f : string) :
  forall rest out cur,
    plain f = true ->
    CSV.parseCSVLoop (f +:+ rest) out cur false =
      CSV.parseCSVLoop rest out (cur +:+ f) false.
Proof.
  induction f as [ | c f IH]; intros rest out cur Hf.
  - now rewrite append_nil_l, append_nil_r.
  - simpl in Hf. apply andb_prop in Hf as [Hc Hf].
    apply andb_prop in Hc as [Hq Hcomma].
    apply negb_true_iff in Hq, Hcomma.
    rewrite append_cons. simpl CSV.parseCSVLoop. rewrite Hq, Hcomma. simpl.
    rewrite IH by exact Hf. now rewrite snoc_append.
Qed.

(** Inside the quotes, the reader recovers any text from its escaped
    form. *)
Lemma parse_inside (s : string) :
  forall rest out cur,
    closes rest ->
    CSV.parseCSVLoop (CSV.escapeCSV s +:+ String CSV.dquote rest) out cur true =
      CSV.parseCSVLoop rest out (cur +:+ s) false.
Proof.
  induction s as [ | c s IH]; intros rest out cur Hrest.
  - simpl CSV.escapeCSV. rewrite append_nil_l, append_nil_r.
    simpl. destruct rest as [ | c' rest']; [reflexivity | ].
    simpl in Hrest. now rewrite Hrest.
  - simpl CSV.escapeCSV. destruct (CSV.is_dquote c) eqn:Hc.
    + apply is_dquote_eq in Hc. subst c.
      rewrite !append_cons. simpl CSV.parseCSVLoop.
      change (CSV.is_dquote CSV.dquote) with true. simpl.
      rewrite IH by exact Hrest. now rewrite snoc_append.
    + rewrite append_cons. simpl CSV.parseCSVLoop. rewrite Hc.
      rewrite andb_false_r.
      rewrite IH by exact Hrest. now rewrite snoc_append.
Qed.

Lemma parse_quoted (s rest : string) (out : list string) :
  closes rest ->
  CSV.parseCSVLoop (CSV.quoted (CSV.escapeCSV s) +:+ rest) out EmptyString false
    = CSV.parseCSVLoop rest out s false.
Proof.
  intros Hrest. unfold CSV.quoted.
  rewrite append_cons, append_assoc, append_cons, append_nil_l.
  simpl CSV.parseCSVLoop. change (CSV.is_dquote CSV.dquote) with true. simpl.
  now rewrite parse_inside, append_nil_l.
Qed.

Lemma parse_plain_comma (f rest : string) (out : list string) :
  plain f = true ->
  CSV.parseCSVLoop (f +:+ String CSV.comma rest) out EmptyString false =
    CSV.parseCSVLoop rest (out ++ [f]) EmptyString false.
Proof. intros Hf. now rewrite parse_plain, append_nil_l. Qed.

Lemma parse_quoted_comma (s rest : string) (out : list string) :
  CSV.parseCSVLoop
    (CSV.quoted (CSV.escapeCSV s) +:+ String CSV.comma rest) out EmptyString
    false =
    CSV.parseCSVLoop rest (out ++ [s]) EmptyString false.
Proof. now rewrite parse_quoted. Qed.

Lemma parse_quoted_end (s : string) (out : list string) :
  CSV.parseCSVLoop (CSV.quoted (CSV.escapeCSV s)) out EmptyString false =
    out ++ [s].
Proof.
  rewrite <- (append_nil_r (CSV.quoted (CSV.escapeCSV s))).
  now rewrite parse_quoted.
Qed.

Lemma escapeCSV_noQuote (s : string) :
  noQuote s = true -> CSV.escapeCSV s = s.
Proof.
  induction s as [ | c s IH]; simpl; [reflexivity | ].
  intros H. apply andb_prop in H as [Hc Hs]. apply negb_true_iff in Hc.
  now rewrite Hc, IH.
Qed.

Lemma unescapeCSV_pair (c c' : ascii) (s : string) :
  CSV.unescapeCSV (String c (String c' s)) =
    if CSV.is_dquote c && CSV.is_dquote c'
    then String CSV.dquote (CSV.unescapeCSV s)
    else String c (CSV.unescapeCSV (String c' s)).
Proof. reflexivity. Qed.

Lemma unescapeCSV_noDoubledQuote (s : string) :
  noDoubledQuote s = true -> CSV.unescapeCSV s = s.
Proof.
  induction s as [ | c s IH]; [reflexivity | ].
  intros H. simpl in H.
  destruct s as [ | c' s']; [reflexivity | ].
  apply andb_prop in H as [Hc Hs]. apply negb_true_iff in Hc.
  rewrite unescapeCSV_pair, Hc. now rewrite IH.
Qed.

Lemma noQuote_noDoubledQuote (s : string) :
  noQuote s = true -> noDoubledQuote s = true.
Proof.
  induction s as [ | c s IH]; [reflexivity | ].
  intros H. simpl in H. apply andb_prop in H as [Hc Hs].
  apply negb_true_iff in Hc. simpl. rewrite Hc, (IH Hs).
  destruct s; reflexivity.
Qed.

Lemma unescapeCSV_noQuote (s : string) :
  noQuote s = true -> CSV.unescapeCSV s = s.
Proof.
  intros H. now apply unescapeCSV_noDoubledQuote, noQuote_noDoubledQuote.
Qed.

Lemma plain_uint (d : Decimal.uint) : plain (NilEmpty.string_of_uint d) = true.
Proof. induction d; simpl; auto. Qed.

Lemma plain_numberToString (n : Z) : plain (CSV.numberToString n) = true.
Proof.
  unfold CSV.numberToString.
  assert (H : forall d, plain (NilZero.string_of_uint d) = true).
  { intros d. destruct d; try reflexivity; apply (plain_uint (_ d)). }
  destruct n as [ | p | p]; simpl; [reflexivity | apply H | apply H].
Qed.

(** The reader splits the line written for a record into the thirteen
    fields it was built from, with the text fields unescaped already,
    whatever they contain, provided the status holds neither quote nor
    comma and the registration time no quote. *)
Lemma parseCSVLine_patientToCSV (p : Patient.t) :
  plain (Patient.status p) = true ->
  noQuote (Patient.registrationTime p) = true ->
  CSV.parseCSVLine (CSV.patientToCSV p) =
    [ CSV.numberToString (Patient.id p);
      Patient.name p;
      CSV.numberToString (Patient.age p);
      Patient.complaint p;
      CSV.numberToString (Patient.severity p);
      Patient.status p;
      CSV.numberToString (Patient.assignedBed p);
      (if Patient.requiresVentilator p then "1" else "0");
      CSV.numberToString (Patient.assignedVentilator p);
      CSV.numberToString (Patient.enqueuedSequence p);
      Patient.registrationTime p;
      CSV.numberToString (Patient.treatmentDurationMs p);
      Patient.prescription p ].
Proof.
  intros Hstatus Htime.
  unfold CSV.parseCSVLine, CSV.patientToCSV, CSV.join.
  rewrite <- (escapeCSV_noQuote _ Htime) at 1.
  assert (Hflag : plain (if Patient.requiresVentilator p then "1" else "0")
                  = true).
  { destruct (Patient.requiresVentilator p); reflexivity. }
  repeat first
    [ rewrite parse_quoted_comma
    | rewrite parse_quoted_end
    | rewrite parse_plain_comma
        by first [ apply plain_numberToString | exact Hstatus | exact Hflag ] ].
  reflexivity.
Qed.

(** The round trip holds for every record of the scheduler whose text
    fields hold no two adjacent double quotes. *)
Lemma csv_roundtrip_without_doubled_quotes (p : Patient.t) :
  noDoubledQuote (Patient.name p) = true ->
  noDoubledQuote (Patient.complaint p) = true ->
  noDoubledQuote (Patient.prescription p) = true ->
  noQuote (Patient.registrationTime p) = true ->
  plain (Patient.status p) = true ->
  1 <= Patient.severity p <= 3 ->
  CSV.patientFromCSVLine (CSV.patientToCSV p) = CSV.Object p.
Proof.
  intros Hname Hcomplaint Hrx Htime Hstatus Hsev.
  unfold CSV.patientFromCSVLine.
  rewrite (parseCSVLine_patientToCSV p Hstatus Htime).
  simpl length. simpl Nat.ltb. cbv iota. unfold CSV.field. simpl nth.
  rewrite !parseInt_numberToString.
  rewrite (unescapeCSV_noDoubledQuote _ Hname),
    (unescapeCSV_noDoubledQuote _ Hcomplaint),
    (unescapeCSV_noDoubledQuote _ Hrx), (unescapeCSV_noQuote _ Htime).
  assert (Hs : intToSeverity (Patient.severity p) = Patient.severity p).
  { unfold intToSeverity.
    destruct (Z.leb_spec 3 (Patient.severity p)); [lia | ].
    destruct (Z.eqb_spec (Patient.severity p) 2); lia. }
  rewrite Hs.
  assert (Hv : match CSV.parseInt
                       (if Patient.requiresVentilator p then "1" else "0") with
               | Some x => negb (x =? 0)
               | None => true
               end = Patient.requiresVentilator p).
  { destruct (Patient.requiresVentilator p); reflexivity. }
  rewrite Hv. now destruct p.
Qed.

Example csv_roundtrip_plainPatient :
  CSV.patientFromCSVLine (CSV.patientToCSV plainPatient) =
    CSV.Object plainPatient.
Proof.
  apply csv_roundtrip_without_doubled_quotes;
    first [ vm_compute; reflexivity | simpl; lia ].
Qed.

(** C10 fails on the code: [parseCSVLine] already turns the doubled quotes
    of a quoted field back into single ones, and [patientFromCSVLine]
    applies [unescapeCSV] to the result once more.  A name made of two
    double-quote characters comes back as one. *)
Theorem csv_roundtrip_doubled_quote :
  CSV.parseCSVLine (CSV.quoted (CSV.escapeCSV quotedName)) = [quotedName] /\
  CSV.patientFromCSVLine (CSV.patientToCSV quotedPatient) =
    CSV.Object
      (Patient.mk 1 (String CSV.dquote EmptyString) 40 "sprain" 1 Waiting
         (-1) (-1) false 0 "2024-05-01 09:00:00" 35000 "") /\
  CSV.patientFromCSVLine (CSV.patientToCSV quotedPatient) <>
    CSV.Object quotedPatient.
Proof.
  repeat split; try (vm_compute; reflexivity).
  vm_compute. discriminate.
Qed.

(* ================================================================== *)
(** * Further properties of the code *)
(* ================================================================== *)

(** ** The pool: allocation and release compose *)

(** On a pool within its bounds, [allocateBed] succeeds exactly when a bed
    is free; the handle it returns then lies between 1 and [totalBeds],
    one bed less is available, and [releaseBed] of that handle gives the
    pool back as it was.  The same holds for ventilators. *)
Theorem allocate_release_inverse (r : Resources.t) :
  Resources.bounded r ->
  (snd (Resources.allocateBed r) <> -1 <->
   Resources.usedBeds r < Resources.totalBeds r) /\
  (Resources.usedBeds r < Resources.totalBeds r ->
   1 <= snd (Resources.allocateBed r) <= Resources.totalBeds r /\
   Resources.availableBeds (fst (Resources.allocateBed r)) =
     Resources.availableBeds r - 1 /\
   Resources.releaseBed (snd (Resources.allocateBed r))
     (fst (Resources.allocateBed r)) = r) /\
  (snd (Resources.allocateVentilator r) <> -1 <->
   Resources.usedVentilators r < Resources.totalVentilators r) /\
  (Resources.usedVentilators r < Resources.totalVentilators r ->
   1 <= snd (Resources.allocateVentilator r) <= Resources.totalVentilators r /\
   Resources.availableVentilators (fst (Resources.allocateVentilator r)) =
     Resources.availableVentilators r - 1 /\
   Resources.releaseVentilator (snd (Resources.allocateVentilator r))
     (fst (Resources.allocateVentilator r)) = r).
Proof.
  intros [Hb Hv]. destruct r as [tb ub tv uv]. simpl in *.
  unfold Resources.allocateBed, Resources.allocateVentilator,
    Resources.releaseBed, Resources.releaseVentilator,
    Resources.availableBeds, Resources.availableVentilators. simpl.
  repeat split; intros;
    repeat match goal with
           | H : context [?a <? ?b] |- _ =>
               destruct (Z.ltb_spec a b); simpl in H
           end;
    case_compare; simpl in *; try lia; try (f_equal; lia).
Qed.

Lemma allocate_release_inverse_witness :
  Resources.releaseBed
    (snd (Resources.allocateBed (Resources.mk 3 1 2 2)))
    (fst (Resources.allocateBed (Resources.mk 3 1 2 2)))
    = Resources.mk 3 1 2 2 /\
  snd (Resources.allocateVentilator (Resources.mk 3 1 2 2)) = -1.
Proof.
  assert (Hb : Resources.bounded (Resources.mk 3 1 2 2)).
  { unfold Resources.bounded. simpl. lia. }
  destruct (allocate_release_inverse (Resources.mk 3 1 2 2) Hb)
    as (_ & Hbed & Hvent & _).
  split.
  - apply Hbed. simpl. lia.
  - destruct (Z.eq_dec
                (snd (Resources.allocateVentilator (Resources.mk 3 1 2 2)))
                (-1)) as [E | E]; [exact E | ].
    apply Hvent in E. simpl in E. lia.
Defined.

(** ** The allocation pass: accounting and exhaustion *)

Lemma allocateLoop_accounting (wq : list WaitingEntry) :
  forall res recs ready wq' res' recs' ready',
    allocateLoop wq res recs ready = (wq', res', recs', ready') ->
    Resources.bounded res ->
    exists pre,
      wq = pre ++ wq' /\
      Resources.totalBeds res' = Resources.totalBeds res /\
      Resources.totalVentilators res' = Resources.totalVentilators res /\
      Resources.usedBeds res' =
        Resources.usedBeds res + Z.of_nat (length pre) /\
      Resources.usedVentilators res' =
        Resources.usedVentilators res +
        Z.of_nat
          (length
             (List.filter (fun e => Patient.requiresVentilator (patient e))
                pre)) /\
      match wq' with
      | [] => True
      | top :: _ =>
          Resources.totalBeds res' <= Resources.usedBeds res' \/
          (Patient.requiresVentilator (patient top) = true /\
           Resources.totalVentilators res' <= Resources.usedVentilators res')
      end.
Proof.
  induction wq as [ | top rest IH];
    intros res recs ready wq' res' recs' ready' H Hb.
  - simpl in H. injection H as <- <- <- <-. exists []. simpl.
    repeat split; lia.
  - destruct res as [tb ub tv uv]. destruct Hb as [Hb Hv]. simpl in Hb, Hv.
    simpl in H. unfold Resources.allocateBed in H. simpl in H.
    destruct (Z.ltb_spec ub tb) as [Hfree | Hfull].
    + destruct (Z.eqb_spec (ub + 1) (-1)) as [E | _]; [lia | ].
      destruct (Patient.requiresVentilator (patient top)) eqn:Hrv.
      * unfold Resources.allocateVentilator in H. simpl in H.
        destruct (Z.ltb_spec uv tv) as [Hvfree | Hvfull].
        -- destruct (Z.eqb_spec (uv + 1) (-1)) as [E | _]; [lia | ].
           simpl in H.
           apply IH in H as (pre & -> & Ht & Htv & Hu & Huv & Hstop);
             [ | unfold Resources.bounded; simpl; lia].
           exists (top :: pre). simpl in *. rewrite Hrv. simpl.
           repeat split; auto; lia.
        -- simpl in H. unfold Resources.releaseBed in H. simpl in H.
           destruct (Z.ltb_spec 0 (ub + 1)); [ | lia].
           injection H as <- <- <- <-. exists []. simpl.
           repeat split; try lia. right. split; [exact Hrv | lia].
      * simpl in H.
        apply IH in H as (pre & -> & Ht & Htv & Hu & Huv & Hstop);
          [ | unfold Resources.bounded; simpl; lia].
        exists (top :: pre). simpl in *. rewrite Hrv.
        repeat split; auto; lia.
    + simpl in H. injection H as <- <- <- <-. exists []. simpl.
      repeat split; lia.
Qed.

(** A pass on a pool within its bounds takes one bed for every patient it
    removes from the queue and one ventilator for each of them that needs
    one, leaves the totals alone, and stops only when the queue is empty
    or the patient now at the front cannot be served: no bed is free, or
    the patient needs a ventilator and none is free. *)
Theorem pass_accounting_and_exhaustion (st : State) :
  Resources.bounded (resources st) ->
  exists pre,
    waitingQueue st = pre ++ waitingQueue (tryAllocateResources st) /\
    Resources.totalBeds (resources (tryAllocateResources st)) =
      Resources.totalBeds (resources st) /\
    Resources.totalVentilators (resources (tryAllocateResources st)) =
      Resources.totalVentilators (resources st) /\
    Resources.usedBeds (resources (tryAllocateResources st)) =
      Resources.usedBeds (resources st) + Z.of_nat (length pre) /\
    Resources.usedVentilators (resources (tryAllocateResources st)) =
      Resources.usedVentilators (resources st) +
      Z.of_nat
        (length
           (List.filter (fun e => Patient.requiresVentilator (patient e))
              pre)) /\
    match waitingQueue (tryAllocateResources st) with
    | [] => True
    | top :: _ =>
        Resources.availableBeds (resources (tryAllocateResources st)) = 0 \/
        (Patient.requiresVentilator (patient top) = true /\
         Resources.availableVentilators (resources (tryAllocateResources st))
           = 0)
    end.
Proof.
  intros Hb.
  pose proof (tryAllocateResources_bounded st Hb) as [Hb' Hv'].
  revert Hb' Hv'. unfold tryAllocateResources.
  destruct (allocateLoop (waitingQueue st) (resources st) (patientRecords st)
              (readyQueue st)) as [[[wq' res'] recs'] ready'] eqn:H.
  simpl. intros Hb' Hv'.
  destruct (allocateLoop_accounting _ _ _ _ _ _ _ _ H Hb)
    as (pre & Hwq & Ht & Htv & Hu & Huv & Hstop).
  exists pre. repeat split; auto.
  destruct wq' as [ | top rest]; [exact I | ].
  unfold Resources.availableBeds, Resources.availableVentilators.
  destruct Hstop as [Hstop | [Hrv Hstop]]; [left | right; split; auto]; lia.
Qed.

Lemma pass_accounting_and_exhaustion_witness :
  exists pre,
    waitingQueue (run lateBedRun) =
      pre ++ waitingQueue (tryAllocateResources (run lateBedRun)) /\
    Resources.usedBeds (resources (tryAllocateResources (run lateBedRun))) =
      Resources.usedBeds (resources (run lateBedRun)) + Z.of_nat (length pre).
Proof.
  assert (Hb : Resources.bounded (resources (run lateBedRun))).
  { unfold Resources.bounded. vm_compute. repeat split; discriminate. }
  destruct (pass_accounting_and_exhaustion (run lateBedRun) Hb)
    as (pre & H1 & _ & _ & H2 & _).
  exists pre. split; assumption.
Defined.

Lemma pass_blocked_identity (st : State) :
  Resources.bounded (resources st) ->
  match waitingQueue st with
  | [] => True
  | top :: _ =>
      Resources.totalBeds (resources st) <= Resources.usedBeds (resources st) \/
      (Patient.requiresVentilator (patient top) = true /\
       Resources.totalVentilators (resources st)
         <= Resources.usedVentilators (resources st))
  end ->
  tryAllocateResources st = st.
Proof.
  intros Hb Hblocked.
  destruct (waitingQueue st) as [ | top rest] eqn:Hwq.
  - unfold tryAllocateResources. rewrite Hwq. simpl.
    destruct st; simpl in *; now subst.
  - destruct (Z.lt_ge_cases (Resources.usedBeds (resources st))
                (Resources.totalBeds (resources st))) as [Hfree | Hfull].
    + destruct Hblocked as [Hfull | [Hrv Hvfull]]; [lia | ].
      now apply (rollback_restores st top rest).
    + unfold tryAllocateResources. rewrite Hwq. simpl.
      unfold Resources.allocateBed.
      destruct (Z.ltb_spec (Resources.usedBeds (resources st))
                  (Resources.totalBeds (resources st))); [lia | ].
      simpl. destruct st; simpl in *; now subst.
Qed.

(** A second pass right after a pass changes nothing: on a pool within its
    bounds the allocation pass is idempotent. *)
Theorem pass_idempotent (st : State) :
  Resources.bounded (resources st) ->
  tryAllocateResources (tryAllocateResources st) = tryAllocateResources st.
Proof.
  intros Hb.
  apply pass_blocked_identity; [now apply tryAllocateResources_bounded | ].
  unfold tryAllocateResources.
  destruct (allocateLoop (waitingQueue st) (resources st) (patientRecords st)
              (readyQueue st)) as [[[wq' res'] recs'] ready'] eqn:H.
  simpl.
  destruct (allocateLoop_accounting _ _ _ _ _ _ _ _ H Hb)
    as (pre & _ & _ & _ & _ & _ & Hstop).
  exact Hstop.
Qed.

Lemma pass_idempotent_witness :
  tryAllocateResources (tryAllocateResources (run lateBedRun)) =
    tryAllocateResources (run lateBedRun).
Proof.
  apply pass_idempotent.
  unfold Resources.bounded. vm_compute. repeat split; discriminate.
Defined.

(** ** Well-formed states along runs *)

Lemma elem_of_entryIds (i : Z) (wq : list WaitingEntry) :
  i ∈ entryIds wq <-> exists e, e ∈ wq /\ Patient.id (patient e) = i.
Proof.
  unfold entryIds. rewrite list_elem_of_In, in_map_iff.
  split; intros (e & H1 & H2); exists e; rewrite list_elem_of_In in *; auto.
Qed.

Lemma entryIds_app (a b : list WaitingEntry) :
  entryIds (a ++ b) = entryIds a ++ entryIds b.
Proof. unfold entryIds. apply map_app. Qed.

Lemma status_distinct :
  Waiting <> Allocated /\ Waiting <> InTreatment /\ Waiting <> Discharged /\
  Allocated <> InTreatment /\ Allocated <> Discharged /\
  InTreatment <> Discharged.
Proof. repeat split; discriminate. Qed.

Lemma wellFormed_pass (st : State) :
  wellFormed st -> wellFormed (tryAllocateResources st).
Proof.
  unfold wellFormed.
  intros (Hnext & Hcount & Hrec & Hnd & Hwait & Hbusy & Hqueued).
  destruct (tryAllocateResources_spec st)
    as (pre & Hwq & Hready & Hout & Hkey & Hall).
  destruct (tryAllocateResources_frame st) as (_ & _ & -> & -> & ->).
  rewrite Hwq, entryIds_app in Hnd.
  apply NoDup_app in Hnd as (Hnd1 & Hdisj & Hnd2).
  assert (Hsome : forall i, is_Some (patientRecords st !! i) ->
                  is_Some (patientRecords (tryAllocateResources st) !! i)).
  { intros i Hi.
    destruct (Hkey i) as [-> | (r & b & v & e & _ & -> & _)]; eauto. }
  assert (Hpre : forall i, i ∈ entryIds pre ->
                 is_Some (patientRecords st !! i)).
  { intros i Hi. apply elem_of_entryIds in Hi as (e & He & <-).
    destruct (Hwait e) as (r & -> & _); eauto.
    rewrite Hwq. apply elem_of_app. now left. }
  repeat split; auto.
  - destruct (Hkey i) as [E | (r & b & v & e & Hr & Hr' & _)].
    + rewrite E in H. now apply Hrec.
    + rewrite Hr' in H. injection H as <-. simpl. now apply (Hrec i r).
  - destruct (Hkey i) as [E | (r & b & v & e & Hr & Hr' & _)].
    + rewrite E in H. now apply (Hrec i p).
    + rewrite Hr' in H. injection H as <-. simpl.
      destruct (Hrec i r Hr) as (_ & Hi & _). lia.
  - destruct (Hkey i) as [E | (r & b & v & e & Hr & Hr' & _)].
    + rewrite E in H. now apply (Hrec i p).
    + rewrite Hr' in H. injection H as <-. simpl.
      destruct (Hrec i r Hr) as (_ & Hi & _). lia.
  - destruct (Hkey i) as [E | (r & b & v & e & Hr & Hr' & _)].
    + rewrite E in H. now apply (Hrec i p).
    + rewrite Hr' in H. injection H as <-. simpl. now apply (Hrec i r).
  - destruct (Hkey i) as [E | (r & b & v & e & Hr & Hr' & _)].
    + rewrite E in H. now apply (Hrec i p).
    + rewrite Hr' in H. injection H as <-. simpl. now apply (Hrec i r).
  - destruct (Hkey i) as [E | (r & b & v & e & Hr & Hr' & _)].
    + rewrite E in H. now apply (Hrec i p).
    + rewrite Hr' in H. injection H as <-. simpl. now apply (Hrec i r).
  - destruct (Hkey i) as [E | (r & b & v & e & Hr & Hr' & _)].
    + rewrite E in H. now apply (Hrec i p).
    + rewrite Hr' in H. injection H as <-. simpl.
      right. now left.
  - destruct (Hkey i) as [E | (r & b & v & e & Hr & Hr' & _)].
    + rewrite E in H. now apply (Hrec i p).
    + rewrite Hr' in H. injection H as <-. simpl. now apply (Hrec i r).
  - destruct (Hkey i) as [E | (r & b & v & e & Hr & Hr' & _)].
    + rewrite E in H. now apply (Hrec i p).
    + rewrite Hr' in H. injection H as <-. simpl. now apply (Hrec i r).
  - intros e He.
    assert (He' : e ∈ waitingQueue st).
    { rewrite Hwq. apply elem_of_app. now right. }
    destruct (Hwait e He') as (r & Hr & Hs). exists r. split; [ | exact Hs].
    rewrite Hout; [exact Hr | ].
    intros Hin. apply (Hdisj _ Hin). apply elem_of_entryIds. eauto.
  - rewrite Hready in H. rewrite elem_of_app in H.
    destruct H as [[H | H] | H].
    + destruct (Hbusy i (or_introl H)) as [Hn _].
      rewrite Hwq, entryIds_app, elem_of_app in Hn. tauto.
    + now apply Hdisj.
    + destruct (Hbusy i (or_intror H)) as [Hn _].
      rewrite Hwq, entryIds_app, elem_of_app in Hn. tauto.
  - rewrite Hready in H. rewrite elem_of_app in H.
    destruct H as [[H | H] | H].
    + apply Hsome. now apply (Hbusy i (or_introl H)).
    + apply Hsome. now apply Hpre.
    + apply Hsome. now apply (Hbusy i (or_intror H)).
  - intros i p Hp Hs.
    destruct (Hkey i) as [E | (r & b & v & e & Hr & Hr' & _)].
    + rewrite E in Hp. pose proof (Hqueued i p Hp Hs) as Hin.
      rewrite Hwq, entryIds_app, elem_of_app in Hin.
      destruct Hin as [Hin | Hin]; [ | exact Hin].
      apply elem_of_entryIds in Hin as (e & He & <-).
      destruct (Hall e p He Hp) as (b & v & E').
      rewrite E, Hp in E'. injection E' as E'. rewrite E' in Hs.
      simpl in Hs. discriminate.
    + rewrite Hr' in Hp. injection Hp as <-. simpl in Hs. discriminate.
Qed.

(** Replacing a stored record by one that keeps the registration fields
    and is not Waiting; it must be Discharged if the patient is queued. *)
Lemma wellFormedParts_update (recs : gmap Z Patient.t)
    (wq : list WaitingEntry) (ready : list Z) (timers : gset Z)
    (next counter i : Z) (r r' : Patient.t) :
  wellFormedParts recs wq ready timers next counter ->
  recs !! i = Some r ->
  sameRegistration r r' ->
  validStatus (Patient.status r') ->
  Patient.status r' <> Waiting ->
  Patient.status r' = Discharged \/ i ∉ entryIds wq ->
  wellFormedParts (<[i := r']> recs) wq ready timers next counter.
Proof.
  intros (Hnext & Hcount & Hrec & Hnd & Hwait & Hbusy & Hqueued)
    Hr Hsame Hvalid Hnw Hq.
  destruct Hsame as (S1 & S2 & S3 & S4 & S5 & S6 & S7 & S8 & S9).
  split; [exact Hnext | ]. split; [exact Hcount | ].
  split; [ | split; [exact Hnd | split; [ | split]]].
  - intros j p Hp. destruct (decide (i = j)) as [<- | Hne].
    + rewrite lookup_insert_eq in Hp. injection Hp as <-.
      destruct (Hrec i r Hr) as (R1 & R2 & R3 & R4 & R5 & R6).
      unfold recordOk. rewrite S1, S5, S7, S9. repeat split; auto; lia.
    + rewrite lookup_insert_ne in Hp by exact Hne. now apply Hrec.
  - intros e He. destruct (Hwait e He) as (r0 & Hr0 & Hs0).
    destruct (decide (i = Patient.id (patient e))) as [-> | Hne].
    + exists r'. rewrite lookup_insert_eq. split; [reflexivity | ].
      destruct Hq as [Hd | Hn]; [now right | ].
      exfalso. apply Hn. apply elem_of_entryIds. eauto.
    + exists r0. now rewrite lookup_insert_ne.
  - intros j Hj. destruct (Hbusy j Hj) as [Hn Hs]. split; [exact Hn | ].
    destruct (decide (i = j)) as [<- | Hne].
    + rewrite lookup_insert_eq. eauto.
    + now rewrite lookup_insert_ne.
  - intros j p Hp Hs. destruct (decide (i = j)) as [<- | Hne].
    + rewrite lookup_insert_eq in Hp. injection Hp as <-. contradiction.
    + rewrite lookup_insert_ne in Hp by exact Hne. eauto.
Qed.

Lemma wellFormedParts_queues (recs : gmap Z Patient.t)
    (wq : list WaitingEntry) (ready ready' : list Z) (timers timers' : gset Z)
    (next counter : Z) :
  wellFormedParts recs wq ready timers next counter ->
  (forall i, i ∈ ready' \/ i ∈ timers' -> i ∈ ready \/ i ∈ timers) ->
  wellFormedParts recs wq ready' timers' next counter.
Proof.
  intros (Hnext & Hcount & Hrec & Hnd & Hwait & Hbusy & Hqueued) Hsub.
  split; [exact Hnext | ]. split; [exact Hcount | ]. split; [exact Hrec | ].
  split; [exact Hnd | ]. split; [exact Hwait | ]. split; [ | exact Hqueued].
  intros i Hi. apply Hbusy. auto.
Qed.

Lemma intToSeverity_range (x : Z) : 1 <= intToSeverity x <= 3.
Proof. unfold intToSeverity. case_compare; lia. Qed.

Lemma wellFormed_register (st : State) (name : string) (age : Z)
    (complaint : string) (severity : Z) (requiresVentilator : bool)
    (now : string) :
  wellFormed st ->
  wellFormed
    (fst (registerPatient name age complaint severity requiresVentilator now
            st)).
Proof.
  intros (Hnext & Hcount & Hrec & Hnd & Hwait & Hbusy & Hqueued).
  unfold registerPatient. simpl. apply wellFormed_pass.
  unfold wellFormed. simpl.
  set (sev := intToSeverity (if severity =? 0 then 1 else severity)).
  set (p := Patient.mk (nextPatientId st) name age complaint sev Waiting (-1)
              (-1) requiresVentilator (sequenceCounter st) now
              (severityTreatmentMs sev) EmptyString).
  set (new := mkEntry p (sequenceCounter st)).
  assert (Hfresh : nextPatientId st ∉ entryIds (waitingQueue st)).
  { intros Hin. apply elem_of_entryIds in Hin as (e & He & Hid).
    destruct (Hwait e He) as (r & Hr & _).
    destruct (Hrec _ r Hr) as (_ & Hlt & _). lia. }
  assert (Hids : Permutation
                   (entryIds (sortWaitingQueue (waitingQueue st ++ [new])))
                   (entryIds (waitingQueue st) ++ [nextPatientId st])).
  { unfold sortWaitingQueue, entryIds.
    rewrite <- (arraySort_perm compareWaiting). now rewrite map_app. }
  assert (Hmem : forall e,
             e ∈ sortWaitingQueue (waitingQueue st ++ [new]) ->
             e ∈ waitingQueue st \/ e = new).
  { intros e He. unfold sortWaitingQueue in He.
    rewrite <- arraySort_perm in He. apply elem_of_app in He as [He | He];
      [now left | right; now apply list_elem_of_singleton in He]. }
  split; [lia | ]. split; [lia | ].
  split; [ | split; [ | split; [ | split]]].
  - intros i q Hq. destruct (decide (nextPatientId st = i)) as [<- | Hne].
    + rewrite lookup_insert_eq in Hq. injection Hq as <-.
      unfold recordOk, validStatus. simpl.
      pose proof (intToSeverity_range
                    (if severity =? 0 then 1 else severity)).
      repeat split; auto; lia.
    + rewrite lookup_insert_ne in Hq by exact Hne.
      destruct (Hrec i q Hq) as (R1 & R2 & R3 & R4 & R5 & R6).
      unfold recordOk. repeat split; auto; lia.
  - rewrite Hids. apply NoDup_app. repeat split; auto.
    + intros x Hx Hx'. apply list_elem_of_singleton in Hx'. now subst.
    + apply NoDup_singleton.
  - intros e He. destruct (Hmem e He) as [He' | ->].
    + destruct (Hwait e He') as (r & Hr & Hs). exists r.
      split; [ | exact Hs]. rewrite lookup_insert_ne; [exact Hr | ].
      intros E. apply Hfresh. apply elem_of_entryIds. eauto.
    + exists p. simpl. rewrite lookup_insert_eq. auto.
  - intros i Hi. destruct (Hbusy i Hi) as [Hn [r Hr]].
    assert (Hne : nextPatientId st <> i).
    { destruct (Hrec i r Hr) as (_ & Hlt & _). lia. }
    split.
    + rewrite Hids, elem_of_app, list_elem_of_singleton.
      intros [H | H]; [now apply Hn | congruence].
    + rewrite lookup_insert_ne by exact Hne. eauto.
  - intros i q Hq Hs. rewrite Hids, elem_of_app, list_elem_of_singleton.
    destruct (decide (nextPatientId st = i)) as [<- | Hne]; [now right | ].
    rewrite lookup_insert_ne in Hq by exact Hne. left. eauto.
Qed.

Lemma sameRegistration_assign (b v : Z) (s : string) (r : Patient.t) :
  sameRegistration r (Patient.assign b v s r).
Proof. repeat split. Qed.

Lemma wellFormed_step (st : State) (o : Op) :
  wellFormed st -> wellFormed (step st o).
Proof.
  intros Hwf.
  destruct o as [n a c s v now | id | b v d | | | | pid]; simpl.
  - now apply wellFormed_register.
  - unfold dischargePatient.
    destruct (patientRecords st !! id) as [p | ] eqn:Hp; simpl; [ | exact Hwf].
    apply wellFormed_pass. unfold wellFormed. simpl.
    eapply wellFormedParts_update;
      [ exact Hwf | exact Hp | apply sameRegistration_assign
      | simpl; unfold validStatus; auto | simpl; discriminate
      | left; reflexivity ].
  - exact Hwf.
  - unfold startDoctorWorkers. destruct (systemRunning st); exact Hwf.
  - unfold stopDoctorWorkers. destruct (systemRunning st); simpl; [ | exact Hwf].
    unfold wellFormed. simpl. eapply wellFormedParts_queues; [exact Hwf | ].
    intros i [Hi | Hi]; [now left | now apply elem_of_empty in Hi].
  - unfold doctorPick.
    destruct (systemRunning st); simpl; [ | exact Hwf].
    destruct (readyQueue st) as [ | pid rest] eqn:Hready; [exact Hwf | ].
    unfold wellFormed in *. rewrite Hready in Hwf.
    assert (Hpid : pid ∉ entryIds (waitingQueue st)).
    { destruct Hwf as (_ & _ & _ & _ & _ & Hbusy & _).
      apply (Hbusy pid). left. apply list_elem_of_here. }
    destruct (pid =? 0); simpl.
    { eapply wellFormedParts_queues; [exact Hwf | ].
      intros i [Hi | Hi]; [left; now apply list_elem_of_further | now right]. }
    destruct (patientRecords st !! pid) as [p | ] eqn:Hp; simpl.
    + eapply wellFormedParts_queues.
      * eapply wellFormedParts_update;
          [ exact Hwf | exact Hp | apply sameRegistration_assign
          | simpl; unfold validStatus; auto | simpl; discriminate
          | right; exact Hpid ].
      * intros i [Hi | Hi]; [left; now apply list_elem_of_further | ].
        apply elem_of_union in Hi as [Hi | Hi]; [ | now right].
        apply elem_of_singleton in Hi. subst i. left. apply list_elem_of_here.
    + eapply wellFormedParts_queues; [exact Hwf | ].
      intros i [Hi | Hi]; [left; now apply list_elem_of_further | now right].
  - unfold treatmentDone.
    destruct (decide (pid ∈ activeTreatmentTimers st)) as [Hin | ];
      [ | exact Hwf].
    destruct (patientRecords st !! pid) as [p | ] eqn:Hp.
    + match goal with
      | |- wellFormed
             (mkState _ _ _ _ _ _ _ _ (activeTreatmentTimers ?s ∖ _)) =>
          assert (H : wellFormed s)
      end.
      { apply wellFormed_pass. unfold wellFormed. simpl.
        eapply wellFormedParts_update;
          [ exact Hwf | exact Hp | repeat split
          | simpl; unfold validStatus; auto | simpl; discriminate
          | left; reflexivity ]. }
      unfold wellFormed in *. simpl.
      eapply wellFormedParts_queues; [exact H | ].
      intros i [Hi | Hi];
        [now left | right; apply elem_of_difference in Hi; tauto].
    + unfold wellFormed in *. simpl.
      eapply wellFormedParts_queues; [exact Hwf | ].
      intros i [Hi | Hi];
        [now left | right; apply elem_of_difference in Hi; tauto].
Qed.

Lemma run_wellFormed (ops : list Op) : wellFormed (run ops).
Proof.
  apply run_invariant; [ | exact wellFormed_step].
  unfold wellFormed, wellFormedParts. simpl.
  split; [lia | ]. split; [lia | ].
  split; [ | split; [apply NoDup_nil_2 | split; [ | split]]].
  - intros i p H. rewrite lookup_empty in H. discriminate.
  - intros e He. inversion He.
  - intros i [Hi | Hi]; [inversion Hi | now apply elem_of_empty in Hi].
  - intros i p H. rewrite lookup_empty in H. discriminate.
Qed.

(** ** The registry along runs *)

(** In every state of every run, a record is stored under its own id; ids
    start at 1 and lie below [nextPatientId], which no operation lowers,
    so an id is never handed out twice; the severity is 1, 2 or 3, the
    treatment duration is the one of that severity, the status is one of
    the four status strings, and the arrival sequence number lies below
    [sequenceCounter]. *)
Theorem registry_records_wellformed (ops : list Op) (i : Z) (p : Patient.t) :
  patientRecords (run ops) !! i = Some p ->
  Patient.id p = i /\
  1 <= i < nextPatientId (run ops) /\
  1 <= Patient.severity p <= 3 /\
  Patient.treatmentDurationMs p = severityTreatmentMs (Patient.severity p) /\
  validStatus (Patient.status p) /\
  0 <= Patient.enqueuedSequence p < sequenceCounter (run ops).
Proof.
  intros Hp. destruct (run_wellFormed ops) as (_ & _ & Hrec & _).
  exact (Hrec i p Hp).
Qed.

Lemma registry_records_wellformed_witness :
  Patient.id
    (Patient.mk 2 "Ben" 40 "sprain" 1 Allocated 2 (-1) false 1
       "2024-05-01 09:01:00" 35000 "") = 2 /\
  1 <= 2 < nextPatientId (run busyRun).
Proof.
  assert (H : patientRecords (run busyRun) !! 2 =
              Some (Patient.mk 2 "Ben" 40 "sprain" 1 Allocated 2 (-1) false 1
                      "2024-05-01 09:01:00" 35000 "")).
  { vm_compute. reflexivity. }
  destruct (registry_records_wellformed busyRun 2 _ H) as (H1 & H2 & _).
  split; assumption.
Defined.

(** The admission queue along runs: no patient is queued twice, every
    queued patient is registered with status Waiting or Discharged, and
    every Waiting patient is queued. *)
Theorem waiting_queue_membership (ops : list Op) :
  NoDup (entryIds (waitingQueue (run ops))) /\
  (forall e, e ∈ waitingQueue (run ops) ->
     exists r, patientRecords (run ops) !! Patient.id (patient e) = Some r /\
               (Patient.status r = Waiting \/ Patient.status r = Discharged)) /\
  (forall i p, patientRecords (run ops) !! i = Some p ->
     Patient.status p = Waiting -> i ∈ entryIds (waitingQueue (run ops))).
Proof.
  destruct (run_wellFormed ops) as (_ & _ & _ & Hnd & Hwait & _ & Hqueued).
  auto.
Qed.

Lemma waiting_queue_membership_witness :
  3 ∈ entryIds (waitingQueue (run busyRun)).
Proof.
  apply (proj2 (proj2 (waiting_queue_membership busyRun)) 3
           (Patient.mk 3 "Cara" 35 "cough" 1 Waiting (-1) (-1) false 2
              "2024-05-01 09:02:00" 35000 "")).
  - vm_compute. reflexivity.
  - reflexivity.
Defined.

Lemma sameRegistration_refl (r : Patient.t) : sameRegistration r r.
Proof. repeat split. Qed.

Lemma sameRegistration_trans (a b c : Patient.t) :
  sameRegistration a b -> sameRegistration b c -> sameRegistration a c.
Proof. unfold sameRegistration. intuition congruence. Qed.

Lemma pass_sameRegistration (st : State) (i : Z) (p : Patient.t) :
  patientRecords st !! i = Some p ->
  exists p', patientRecords (tryAllocateResources st) !! i = Some p' /\
             sameRegistration p p'.
Proof.
  intros Hp.
  destruct (tryAllocateResources_spec st) as (pre & _ & _ & _ & Hkey & _).
  destruct (Hkey i) as [E | (r & b & v & e & Hr & Hr' & _)].
  - exists p. rewrite E. split; [exact Hp | apply sameRegistration_refl].
  - rewrite Hp in Hr. injection Hr as <-. eexists. split; [exact Hr' | ].
    apply sameRegistration_assign.
Qed.

Lemma insert_sameRegistration (recs : gmap Z Patient.t) (j i : Z)
    (r r' p : Patient.t) :
  recs !! j = Some r -> sameRegistration r r' -> recs !! i = Some p ->
  exists p', <[j := r']> recs !! i = Some p' /\ sameRegistration p p'.
Proof.
  intros Hr Hsame Hp. destruct (decide (j = i)) as [-> | Hne].
  - rewrite Hp in Hr. injection Hr as <-. exists r'.
    now rewrite lookup_insert_eq.
  - exists p. rewrite lookup_insert_ne by exact Hne.
    split; [exact Hp | apply sameRegistration_refl].
Qed.

Lemma step_keeps_records (st : State) (o : Op) (i : Z) (p : Patient.t) :
  wellFormed st ->
  patientRecords st !! i = Some p ->
  exists p', patientRecords (step st o) !! i = Some p' /\
             sameRegistration p p'.
Proof.
  intros Hwf Hp.
  assert (Hkeep : exists p', patientRecords st !! i = Some p' /\
                             sameRegistration p p').
  { exists p. split; [exact Hp | apply sameRegistration_refl]. }
  destruct o as [n a c s v now | id | b v d | | | | pid]; simpl.
  - unfold registerPatient. simpl.
    match goal with
    | |- context [tryAllocateResources ?s] =>
        destruct (pass_sameRegistration s i p) as (p' & H1 & H2)
    end; [ | eauto].
    simpl. rewrite lookup_insert_ne; [exact Hp | ].
    destruct Hwf as (_ & _ & Hrec & _).
    destruct (Hrec i p Hp) as (_ & Hlt & _). lia.
  - unfold dischargePatient.
    destruct (patientRecords st !! id) as [q | ] eqn:Hq; simpl;
      [ | exact Hkeep].
    destruct (insert_sameRegistration (patientRecords st) id i q
                (Patient.assign (-1) (-1) Discharged q) p Hq
                (sameRegistration_assign _ _ _ _) Hp) as (p1 & H1 & H2).
    match goal with
    | |- context [tryAllocateResources ?s] =>
        destruct (pass_sameRegistration s i p1 H1) as (p' & H3 & H4)
    end.
    exists p'. split; [exact H3 | eapply sameRegistration_trans; eauto].
  - exact Hkeep.
  - unfold startDoctorWorkers. destruct (systemRunning st); exact Hkeep.
  - unfold stopDoctorWorkers. destruct (systemRunning st); exact Hkeep.
  - unfold doctorPick. destruct (systemRunning st); simpl; [ | exact Hkeep].
    destruct (readyQueue st) as [ | pid rest]; [exact Hkeep | ].
    destruct (pid =? 0); simpl; [exact Hkeep | ].
    destruct (patientRecords st !! pid) as [q | ] eqn:Hq; simpl;
      [ | exact Hkeep].
    exact (insert_sameRegistration (patientRecords st) pid i q _ p Hq
             (sameRegistration_assign _ _ _ _) Hp).
  - unfold treatmentDone.
    destruct (decide (pid ∈ activeTreatmentTimers st)); [ | exact Hkeep].
    destruct (patientRecords st !! pid) as [q | ] eqn:Hq; simpl;
      [ | exact Hkeep].
    match goal with
    | |- context [tryAllocateResources ?s] =>
        destruct (insert_sameRegistration (patientRecords st) pid i q
                    (Patient.assign (-1) (-1) Discharged
                       (Patient.setPrescription (generatePrescription q) q))
                    p Hq) as (p1 & H1 & H2); [repeat split | exact Hp | ];
        destruct (pass_sameRegistration s i p1 H1) as (p' & H3 & H4)
    end.
    exists p'. split; [exact H3 | eapply sameRegistration_trans; eauto].
Qed.

(** No operation removes a record from the registry or changes what
    registration wrote into it: after any further operation the record is
    still stored under its id with the same id, name, age, complaint,
    severity, ventilator flag, sequence number, registration time and
    treatment duration; and [nextPatientId] never goes down. *)
Theorem registry_never_forgets (ops : list Op) (o : Op) (i : Z)
    (p : Patient.t) :
  patientRecords (run ops) !! i = Some p ->
  (exists p', patientRecords (run (ops ++ [o])) !! i = Some p' /\
              sameRegistration p p') /\
  nextPatientId (run ops) <= nextPatientId (run (ops ++ [o])).
Proof.
  intros Hp. rewrite run_snoc. split.
  - apply step_keeps_records; [apply run_wellFormed | exact Hp].
  - generalize (run ops). intros st.
    destruct o as [n a c s v now | id | b v d | | | | pid]; simpl.
    + unfold registerPatient. simpl.
      match goal with
      | |- context [tryAllocateResources ?s] =>
          destruct (tryAllocateResources_frame s) as (_ & _ & _ & -> & _)
      end. simpl. lia.
    + unfold dischargePatient.
      destruct (patientRecords st !! id); simpl; [ | lia].
      match goal with
      | |- context [tryAllocateResources ?s] =>
          destruct (tryAllocateResources_frame s) as (_ & _ & _ & -> & _)
      end. simpl. lia.
    + lia.
    + unfold startDoctorWorkers. destruct (systemRunning st); simpl; lia.
    + unfold stopDoctorWorkers. destruct (systemRunning st); simpl; lia.
    + unfold doctorPick. destruct (systemRunning st); simpl; [ | lia].
      destruct (readyQueue st); simpl; lia.
    + unfold treatmentDone.
      destruct (decide (pid ∈ activeTreatmentTimers st)); [ | lia].
      destruct (patientRecords st !! pid); simpl; [ | lia].
      match goal with
      | |- context [tryAllocateResources ?s] =>
          destruct (tryAllocateResources_frame s) as (_ & _ & _ & -> & _)
      end. simpl. lia.
Qed.

Lemma registry_never_forgets_witness :
  exists p', patientRecords (run (busyRun ++ [Discharge 2])) !! 2 = Some p' /\
             sameRegistration
               (Patient.mk 2 "Ben" 40 "sprain" 1 Allocated 2 (-1) false 1
                  "2024-05-01 09:01:00" 35000 "") p'.
Proof.
  apply (registry_never_forgets busyRun (Discharge 2) 2).
  vm_compute. reflexivity.
Defined.

(** Registration in any state of a run: the id it hands out,
    [nextPatientId], is not in the registry yet; the record it returns
    carries that id, the caller's name, age, complaint and flag, the
    severity clamped to 1..3, the current sequence number and the time
    stamp; its status is Waiting or Allocated; both counters go up by
    one. *)
Theorem register_assigns_fresh_id (ops : list Op) (name : string) (age : Z)
    (complaint : string) (severity : Z) (requiresVentilator : bool)
    (now : string) :
  patientRecords (run ops) !! nextPatientId (run ops) = None /\
  (exists p,
      snd (registerPatient name age complaint severity requiresVentilator now
             (run ops)) = Some p /\
      Patient.id p = nextPatientId (run ops) /\
      Patient.name p = name /\ Patient.age p = age /\
      Patient.complaint p = complaint /\
      Patient.severity p =
        intToSeverity (if severity =? 0 then 1 else severity) /\
      Patient.requiresVentilator p = requiresVentilator /\
      Patient.enqueuedSequence p = sequenceCounter (run ops) /\
      Patient.registrationTime p = now /\
      Patient.prescription p = EmptyString /\
      (Patient.status p = Waiting \/ Patient.status p = Allocated)) /\
  nextPatientId
    (fst (registerPatient name age complaint severity requiresVentilator now
            (run ops))) = nextPatientId (run ops) + 1 /\
  sequenceCounter
    (fst (registerPatient name age complaint severity requiresVentilator now
            (run ops))) = sequenceCounter (run ops) + 1.
Proof.
  pose proof (run_wellFormed ops) as (_ & _ & Hrec & _).
  generalize dependent (run ops). intros st Hrec.
  split; [ | split].
  - destruct (patientRecords st !! nextPatientId st) as [q | ] eqn:Hq;
      [ | reflexivity].
    destruct (Hrec _ q Hq) as (_ & Hlt & _). lia.
  - unfold registerPatient. simpl.
    match goal with
    | |- context [tryAllocateResources ?s] =>
        destruct (tryAllocateResources_spec s) as (pre & _ & _ & _ & Hkey & _);
        destruct (Hkey (nextPatientId st))
          as [E | (r & b & v & e & Hr & Hr' & _)]
    end.
    + rewrite E. simpl. rewrite lookup_insert_eq. eexists.
      split; [reflexivity | ]. simpl. repeat split; auto.
    + rewrite Hr'. simpl in Hr. rewrite lookup_insert_eq in Hr.
      injection Hr as <-. eexists. split; [reflexivity | ].
      simpl. repeat split; auto.
  - unfold registerPatient. simpl.
    match goal with
    | |- context [tryAllocateResources ?s] =>
        destruct (tryAllocateResources_frame s) as (_ & _ & -> & -> & _)
    end. simpl. auto.
Qed.

(** ** Discharge of patients in care *)

Lemma discharge_not_queued (st : State) (id : Z) (p : Patient.t) :
  patientRecords st !! id = Some p ->
  id ∉ entryIds (waitingQueue st) ->
  patientRecords (fst (dischargePatient id st)) !! id =
    Some (Patient.assign (-1) (-1) Discharged p) /\
  snd (dischargePatient id st) = true.
Proof.
  intros Hp Hid. unfold dischargePatient. rewrite Hp. simpl.
  split; [ | reflexivity].
  match goal with
  | |- context [tryAllocateResources ?s] =>
      destruct (tryAllocateResources_spec s) as (pre & Hwq & _ & Hout & _)
  end.
  rewrite Hout.
  - simpl. apply lookup_insert_eq.
  - simpl in Hwq. intros Hin. apply Hid. rewrite Hwq, entryIds_app.
    apply elem_of_app. now left.
Qed.

(** Administrative discharge of a patient in care: in any state of a run,
    discharging a registered patient whose status is Allocated or
    In-Treatment returns [true] and leaves the record Discharged with both
    handles cleared and everything else in it as it was. *)
Theorem discharge_in_care (ops : list Op) (id : Z) (p : Patient.t) :
  patientRecords (run ops) !! id = Some p ->
  Patient.status p = Allocated \/ Patient.status p = InTreatment ->
  snd (dischargePatient id (run ops)) = true /\
  patientRecords (fst (dischargePatient id (run ops))) !! id =
    Some (Patient.assign (-1) (-1) Discharged p).
Proof.
  intros Hp Hs.
  destruct (run_wellFormed ops) as (_ & _ & _ & _ & Hwait & _).
  assert (Hid : id ∉ entryIds (waitingQueue (run ops))).
  { intros Hin. apply elem_of_entryIds in Hin as (e & He & Hid).
    destruct (Hwait e He) as (r & Hr & Hrs). rewrite Hid, Hp in Hr.
    injection Hr as <-.
    destruct Hs as [Hs | Hs], Hrs as [Hrs | Hrs]; rewrite Hs in Hrs;
      discriminate. }
  destruct (discharge_not_queued (run ops) id p Hp Hid) as (H1 & H2).
  split; assumption.
Qed.

Lemma discharge_in_care_witness :
  patientRecords (fst (dischargePatient 1 (run busyRun))) !! 1 =
    Some (Patient.mk 1 "Asha" 61 "not breathing" 3 Discharged (-1) (-1) true
            0 "2024-05-01 09:00:00" 45000 "").
Proof.
  apply (discharge_in_care busyRun 1
           (Patient.mk 1 "Asha" 61 "not breathing" 3 InTreatment 1 1 true 0
              "2024-05-01 09:00:00" 45000 "")).
  - vm_compute. reflexivity.
  - right. reflexivity.
Defined.

(** ** The workers along runs *)

Lemma run_idleWithoutTimers (ops : list Op) : idleWithoutTimers (run ops).
Proof.
  apply run_invariant; [intros _; reflexivity | ].
  unfold idleWithoutTimers. intros st o Hidle.
  destruct o as [n a c s v now | id | b v d | | | | pid]; simpl.
  - unfold registerPatient. simpl.
    match goal with
    | |- context [tryAllocateResources ?s] =>
        destruct (tryAllocateResources_frame s) as (-> & _ & _ & _ & ->)
    end. exact Hidle.
  - unfold dischargePatient.
    destruct (patientRecords st !! id); simpl; [ | exact Hidle].
    match goal with
    | |- context [tryAllocateResources ?s] =>
        destruct (tryAllocateResources_frame s) as (-> & _ & _ & _ & ->)
    end. exact Hidle.
  - exact Hidle.
  - unfold startDoctorWorkers.
    destruct (systemRunning st) eqn:E; simpl; intros H; congruence.
  - unfold stopDoctorWorkers.
    destruct (systemRunning st) eqn:E; simpl; intros H;
      [reflexivity | now apply Hidle].
  - unfold doctorPick.
    destruct (systemRunning st) eqn:E; simpl; [ | intros _; now apply Hidle].
    destruct (readyQueue st); simpl; intros H; congruence.
  - unfold treatmentDone.
    destruct (decide (pid ∈ activeTreatmentTimers st)) as [Hin | ];
      [ | exact Hidle].
    simpl. intros Hoff.
    assert (Hrun : systemRunning st = false).
    { destruct (patientRecords st !! pid); [ | exact Hoff].
      match type of Hoff with
      | context [tryAllocateResources ?s] =>
          destruct (tryAllocateResources_frame s) as (E & _)
      end.
      rewrite E in Hoff. exact Hoff. }
    rewrite (Hidle Hrun) in Hin. now apply elem_of_empty in Hin.
Qed.

(** Stopping the workers abandons the treatments in progress: in the
    state after [stopDoctorWorkers], no treatment timer fires and no
    worker picks a patient (both steps leave the state as it is), while
    the registry, the pool and both queues are what they were before the
    stop, so patients in treatment stay In-Treatment and keep their
    bed. *)
Theorem stop_abandons_treatments (ops : list Op) :
  (forall pid,
      treatmentDone pid (stopDoctorWorkers (run ops)) =
        stopDoctorWorkers (run ops)) /\
  doctorPick (stopDoctorWorkers (run ops)) = stopDoctorWorkers (run ops) /\
  patientRecords (stopDoctorWorkers (run ops)) = patientRecords (run ops) /\
  resources (stopDoctorWorkers (run ops)) = resources (run ops) /\
  waitingQueue (stopDoctorWorkers (run ops)) = waitingQueue (run ops) /\
  readyQueue (stopDoctorWorkers (run ops)) = readyQueue (run ops).
Proof.
  pose proof (run_idleWithoutTimers ops) as Hidle.
  unfold idleWithoutTimers in Hidle.
  generalize dependent (run ops). intros st Hidle.
  assert (Hoff : systemRunning (stopDoctorWorkers st) = false /\
                 activeTreatmentTimers (stopDoctorWorkers st) = ∅).
  { unfold stopDoctorWorkers.
    destruct (systemRunning st) eqn:E; simpl; auto. }
  destruct Hoff as [Hoff Htimers].
  split; [ | split].
  - intros pid. unfold treatmentDone. rewrite Htimers.
    destruct (decide (pid ∈ (∅ : gset Z))) as [Hin | ]; [ | reflexivity].
    now apply elem_of_empty in Hin.
  - unfold doctorPick. now rewrite Hoff.
  - unfold stopDoctorWorkers. destruct (systemRunning st); simpl; auto.
Qed.

(** Every id on the ready queue is a registered patient, so a pick never
    drops an id: while the workers run, the pick takes the id at the front
    of the ready queue, sets that patient In-Treatment, arms its timer and
    leaves the pool and the admission queue alone. *)
Theorem pick_starts_treatment (ops : list Op) (pid : Z) (rest : list Z) :
  systemRunning (run ops) = true ->
  readyQueue (run ops) = pid :: rest ->
  exists p,
    patientRecords (run ops) !! pid = Some p /\
    patientRecords (doctorPick (run ops)) =
      <[pid := Patient.setStatus InTreatment p]> (patientRecords (run ops)) /\
    readyQueue (doctorPick (run ops)) = rest /\
    (pid ∈ activeTreatmentTimers (doctorPick (run ops))) /\
    resources (doctorPick (run ops)) = resources (run ops) /\
    waitingQueue (doctorPick (run ops)) = waitingQueue (run ops).
Proof.
  intros Hrun Hready.
  destruct (run_wellFormed ops) as (_ & _ & Hrec & _ & _ & Hbusy & _).
  destruct (Hbusy pid) as [_ [p Hp]].
  { left. rewrite Hready. apply list_elem_of_here. }
  destruct (Hrec pid p Hp) as (_ & Hpid & _).
  exists p. unfold doctorPick. rewrite Hrun, Hready. simpl.
  destruct (Z.eqb_spec pid 0) as [E | _]; [lia | ].
  rewrite Hp. simpl. repeat split; auto.
  apply elem_of_union. left. now apply elem_of_singleton.
Qed.

Lemma pick_starts_treatment_witness :
  readyQueue (doctorPick (run busyRun)) = [].
Proof.
  destruct (pick_starts_treatment busyRun 2 []) as (p & _ & _ & H & _).
  - vm_compute. reflexivity.
  - vm_compute. reflexivity.
  - exact H.
Defined.

(** The end of a treatment along runs: when the timer of [pid] fires, the
    patient is registered; afterwards its record is Discharged with both
    handles cleared and the generated prescription, the timer is gone, and
    a second firing would change nothing. *)
Theorem treatment_end_discharges (ops : list Op) (pid : Z) :
  pid ∈ activeTreatmentTimers (run ops) ->
  exists rec,
    patientRecords (run ops) !! pid = Some rec /\
    patientRecords (treatmentDone pid (run ops)) !! pid =
      Some (Patient.assign (-1) (-1) Discharged
              (Patient.setPrescription (generatePrescription rec) rec)) /\
    (pid ∉ activeTreatmentTimers (treatmentDone pid (run ops))) /\
    treatmentDone pid (treatmentDone pid (run ops)) =
      treatmentDone pid (run ops).
Proof.
  intros Hin.
  destruct (run_wellFormed ops) as (_ & _ & _ & _ & _ & Hbusy & _).
  destruct (Hbusy pid (or_intror Hin)) as [Hnq [rec Hrec]]. clear Hbusy.
  generalize dependent (run ops). intros st Hin Hnq Hrec.
  exists rec. split; [exact Hrec | ].
  assert (Hgone : pid ∉ activeTreatmentTimers (treatmentDone pid st)).
  { unfold treatmentDone.
    destruct (decide (pid ∈ activeTreatmentTimers st)); [ | contradiction].
    simpl. intros H. apply elem_of_difference in H as [_ H].
    apply H. now apply elem_of_singleton. }
  split; [ | split; [exact Hgone | ]].
  - unfold treatmentDone.
    destruct (decide (pid ∈ activeTreatmentTimers st)); [ | contradiction].
    rewrite Hrec. simpl.
    match goal with
    | |- context [tryAllocateResources ?s] =>
        destruct (tryAllocateResources_spec s) as (pre & Hwq & _ & Hout & _)
    end.
    rewrite Hout.
    + simpl. apply lookup_insert_eq.
    + simpl in Hwq. intros H. apply Hnq. rewrite Hwq, entryIds_app.
      apply elem_of_app. now left.
  - unfold treatmentDone at 1.
    destruct (decide (pid ∈ activeTreatmentTimers (treatmentDone pid st)));
      [contradiction | reflexivity].
Qed.

Lemma treatment_end_discharges_witness :
  patientRecords (treatmentDone 1 (run busyRun)) !! 1 =
    Some (Patient.mk 1 "Asha" 61 "not breathing" 3 Discharged (-1) (-1) true
            0 "2024-05-01 09:00:00" 45000
            "ICU Medications + Broad-Spectrum Antibiotics | Ventilator Support Required").
Proof.
  destruct (treatment_end_discharges busyRun 1) as (rec & H1 & H2 & _).
  - vm_compute. reflexivity.
  - assert (E : patientRecords (run busyRun) !! 1 =
                Some (Patient.mk 1 "Asha" 61 "not breathing" 3 InTreatment 1 1
                        true 0 "2024-05-01 09:00:00" 45000 "")).
    { vm_compute. reflexivity. }
    rewrite E in H1. injection H1 as <-. exact H2.
Defined.

(** ** The queue position request *)

Lemma admittedBefore_notAfter (a b : WaitingEntry) :
  admittedBefore a b -> notAfter a b.
Proof.
  unfold admittedBefore, notAfter, compareWaiting. case_compare; lia.
Qed.

Lemma arraySort_sorted (l : list WaitingEntry) :
  StronglySorted notAfter l -> arraySort compareWaiting l = l.
Proof.
  induction 1 as [ | x l Hl IH Hx]; simpl; [reflexivity | ].
  rewrite IH. destruct l as [ | y l']; [reflexivity | ]. simpl.
  apply Forall_cons in Hx as [Hxy _]. unfold notAfter in Hxy.
  destruct (Z.leb_spec (compareWaiting x y) 0); [reflexivity | lia].
Qed.

Lemma positionLoop_spec (id : Z) (wq : list WaitingEntry) :
  forall pos,
    match positionLoop id wq pos with
    | Some k =>
        exists n e,
          k = pos + Z.of_nat n /\ wq !! n = Some e /\
          Patient.id (patient e) = id /\
          forall m e', (m < n)%nat -> wq !! m = Some e' ->
                       Patient.id (patient e') <> id
    | None => id ∉ entryIds wq
    end.
Proof.
  induction wq as [ | wp rest IH]; intros pos; simpl.
  - apply not_elem_of_nil.
  - destruct (Z.eqb_spec (Patient.id (patient wp)) id) as [E | Hne].
    + exists 0%nat, wp. repeat split; [lia | exact E | ].
      intros m e' Hm. lia.
    + specialize (IH (pos + 1)).
      destruct (positionLoop id rest (pos + 1)) as [k | ].
      * destruct IH as (n & e & Hk & He & Hid & Hfirst).
        exists (S n), e. repeat split; [lia | exact He | exact Hid | ].
        intros [ | m] e' Hm He'; simpl in He'.
        -- injection He' as <-. exact Hne.
        -- apply (Hfirst m e'); [lia | exact He'].
      * apply not_elem_of_cons. split; [congruence | exact IH].
Qed.

(** The queue position request along runs.  The queue is in order
    already, so the sort the handler performs changes nothing: the request
    leaves the whole state as it was.  It answers [inQueue = true] with the
    number of entries in front of the patient, counted from 0, exactly when
    the patient is queued, and [inQueue = false] with position [-1]
    otherwise. *)
Theorem queue_position_read_only (ops : list Op) (id : Z) :
  fst (queuePosition id (run ops)) = run ops /\
  match snd (queuePosition id (run ops)) with
  | (true, pos) =>
      exists n e,
        pos = Z.of_nat n /\ waitingQueue (run ops) !! n = Some e /\
        Patient.id (patient e) = id /\
        forall m e', (m < n)%nat -> waitingQueue (run ops) !! m = Some e' ->
                     Patient.id (patient e') <> id
  | (false, pos) => pos = -1 /\ id ∉ entryIds (waitingQueue (run ops))
  end.
Proof.
  assert (Hsorted : sortWaitingQueue (waitingQueue (run ops)) =
                    waitingQueue (run ops)).
  { apply arraySort_sorted.
    assert (H : ordered (run ops)).
    { apply run_invariant; [ | exact step_ordered]. split; constructor. }
    destruct H as [H _].
    eapply StronglySorted_weaken; [ | exact H].
    exact admittedBefore_notAfter. }
  unfold queuePosition. simpl. rewrite Hsorted. split.
  - destruct (run ops); reflexivity.
  - pose proof (positionLoop_spec id (waitingQueue (run ops)) 0) as H.
    destruct (positionLoop id (waitingQueue (run ops)) 0) as [k | ].
    + destruct H as (n & e & Hk & He & Hid & Hfirst).
      exists n, e. repeat split; auto; lia.
    + split; [reflexivity | exact H].
Qed.

(** Sorting twice is sorting once, and a queue that is in the order of the
    comparator already comes back unchanged. *)
Theorem sort_idempotent (wq : list WaitingEntry) :
  sortWaitingQueue (sortWaitingQueue wq) = sortWaitingQueue wq /\
  (StronglySorted notAfter wq -> sortWaitingQueue wq = wq).
Proof.
  split.
  - apply arraySort_sorted, sortWaitingQueue_notAfter.
  - apply arraySort_sorted.
Qed.

Lemma sort_idempotent_witness :
  sortWaitingQueue (fullTop :: fullRest) = fullTop :: fullRest.
Proof.
  apply (proj2 (sort_idempotent (fullTop :: fullRest))).
  unfold fullTop, fullRest, notAfter.
  repeat constructor; vm_compute; discriminate.
Defined.

(** ** The snapshot *)

Lemma countStatus_partition (l : list Patient.t) :
  Forall (fun p => validStatus (Patient.status p)) l ->
  (countStatus Waiting l + countStatus Allocated l +
   countStatus InTreatment l + countStatus Discharged l)%nat = length l.
Proof.
  unfold countStatus.
  induction 1 as [ | p l Hp Hl IH]; simpl; [reflexivity | ].
  destruct Hp as [-> | [-> | [-> | ->]]]; simpl; lia.
Qed.

(** The snapshot along runs: every record is counted under exactly one of
    the four statuses, so the four counters add up to [total], the size of
    the registry; [waitingQueueSize] is the length of the admission queue
    and the available counts are total minus used. *)
Theorem snapshot_counts_add_up (ops : list Op) :
  (statWaiting (computeSnapshot (run ops)) +
   statAllocated (computeSnapshot (run ops)) +
   statInTreatment (computeSnapshot (run ops)) +
   statDischarged (computeSnapshot (run ops)))%nat =
    statTotal (computeSnapshot (run ops)) /\
  statTotal (computeSnapshot (run ops)) = size (patientRecords (run ops)) /\
  waitingQueueSize (computeSnapshot (run ops)) =
    length (waitingQueue (run ops)) /\
  snapAvailableBeds (computeSnapshot (run ops)) =
    Resources.totalBeds (resources (run ops)) -
    Resources.usedBeds (resources (run ops)) /\
  snapAvailableVentilators (computeSnapshot (run ops)) =
    Resources.totalVentilators (resources (run ops)) -
    Resources.usedVentilators (resources (run ops)).
Proof.
  destruct (run_wellFormed ops) as (_ & _ & Hrec & _).
  unfold computeSnapshot. simpl. repeat split.
  rewrite countStatus_partition.
  - now rewrite length_fmap, length_map_to_list.
  - apply Forall_forall. intros p Hp.
    apply list_elem_of_fmap in Hp as ([i q] & -> & Hq).
    apply elem_of_map_to_list in Hq.
    now destruct (Hrec i q Hq) as (_ & _ & _ & _ & Hv & _).
Qed.

(** ** More on the CSV codec *)

Lemma escapeCSV_cons (c : ascii) (s : string) :
  CSV.escapeCSV (String c s) =
    if CSV.is_dquote c
    then String CSV.dquote (String CSV.dquote (CSV.escapeCSV s))
    else String c (CSV.escapeCSV s).
Proof. reflexivity. Qed.

(** [unescapeCSV] undoes [escapeCSV] on every string. *)
Theorem unescape_escape (s : string) :
  CSV.unescapeCSV (CSV.escapeCSV s) = s.
Proof.
  induction s as [ | c s IH]; [reflexivity | ].
  rewrite escapeCSV_cons. destruct (CSV.is_dquote c) eqn:Hc.
  - apply is_dquote_eq in Hc. subst c.
    rewrite unescapeCSV_pair. change (CSV.is_dquote CSV.dquote) with true.
    simpl. now rewrite IH.
  - destruct (CSV.escapeCSV s) as [ | c' r] eqn:He.
    + destruct s as [ | c0 s0]; [reflexivity | ].
      rewrite escapeCSV_cons in He. destruct (CSV.is_dquote c0); discriminate.
    + rewrite unescapeCSV_pair, Hc, andb_false_l. now rewrite IH.
Qed.










(** *** Time stamps *)

Lemma plain_append (a b : string) :
  plain (a +:+ b) = plain a && plain b.
Proof.
  induction a as [ | c a IH]; [reflexivity | ].
  rewrite append_cons. simpl. rewrite IH. now rewrite andb_assoc.
Qed.

Lemma plain_noQuote (s : string) : plain s = true -> noQuote s = true.
Proof.
  induction s as [ | c s IH]; [reflexivity | ]. simpl. intros H.
  apply andb_prop in H as [H Hs]. apply andb_prop in H as [Hq _].
  now rewrite Hq, IH.
Qed.

Lemma plain_pad (n : Z) : plain (pad n) = true.
Proof.
  unfold pad. destruct (n <? 10); [ | apply plain_numberToString].
  rewrite plain_append, plain_numberToString. reflexivity.
Qed.

(** Whatever the clock says, the time stamp holds neither a double quote
    nor a comma, so writing it between quotes without escaping, as
    [patientToCSV] does, is read back unchanged: a registration stamped
    by [getCurrentTimestamp] meets the time-stamp condition of
    [csvSafeOp]. *)
Theorem timestamp_is_plain
    (fullYear month date hours minutes seconds : Z) :
  plain (getCurrentTimestamp fullYear month date hours minutes seconds)
    = true /\
  noQuote (getCurrentTimestamp fullYear month date hours minutes seconds)
    = true /\
  forall rest out,
    closes rest ->
    CSV.parseCSVLoop
      (CSV.quoted
         (getCurrentTimestamp fullYear month date hours minutes seconds)
       +:+ rest) out EmptyString false =
    CSV.parseCSVLoop rest out
      (getCurrentTimestamp fullYear month date hours minutes seconds) false.
Proof.
  assert (H : plain
                (getCurrentTimestamp fullYear month date hours minutes
                   seconds) = true).
  { unfold getCurrentTimestamp.
    rewrite !plain_append, !plain_pad, plain_numberToString. reflexivity. }
  split; [exact H | ]. split; [now apply plain_noQuote | ].
  intros rest out Hrest.
  rewrite <- (escapeCSV_noQuote _ (plain_noQuote _ H)) at 1.
  now apply parse_quoted.
Qed.

Lemma timestamp_is_plain_witness :
  getCurrentTimestamp 2024 4 1 9 0 7 = "2024-05-01 09:00:07" /\
  CSV.parseCSVLine (CSV.quoted (getCurrentTimestamp 2024 4 1 9 0 7)) =
    [getCurrentTimestamp 2024 4 1 9 0 7].
Proof.
  split; [vm_compute; reflexivity | ].
  unfold CSV.parseCSVLine.
  rewrite <- (append_nil_r (CSV.quoted (getCurrentTimestamp 2024 4 1 9 0 7))).
  rewrite (proj2 (proj2 (timestamp_is_plain 2024 4 1 9 0 7)) EmptyString []).
  - reflexivity.
  - exact I.
Defined.

(** *** Lines without quotes *)

Lemma join_cons (x y : string) (l : list string) :
  CSV.join (x :: y :: l) = x +:+ String CSV.comma (CSV.join (y :: l)).
Proof. reflexivity. Qed.

Lemma join_merge (out : list string) (a b : string) :
  CSV.join (out ++ [a; b]) = CSV.join (out ++ [a +:+ String CSV.comma b]).
Proof.
  induction out as [ | x out IH]; [reflexivity | ].
  destruct out as [ | y out'].
  - reflexivity.
  - change ((x :: y :: out') ++ [a; b]) with (x :: y :: (out' ++ [a; b])).
    change ((x :: y :: out') ++ [a +:+ String CSV.comma b])
      with (x :: y :: (out' ++ [a +:+ String CSV.comma b])).
    rewrite !join_cons. f_equal. f_equal. exact IH.
Qed.

Lemma is_comma_eq (c : ascii) : CSV.is_comma c = true -> c = CSV.comma.
Proof. unfold CSV.is_comma. apply Ascii.eqb_eq. Qed.

Lemma parse_unquoted (line : string) :
  forall out cur,
    noQuote line = true ->
    CSV.join (CSV.parseCSVLoop line out cur false) =
      CSV.join (out ++ [cur +:+ line]) /\
    length (CSV.parseCSVLoop line out cur false) =
      (length out + S (countCommas line))%nat.
Proof.
  induction line as [ | c line IH]; intros out cur Hq.
  - simpl. rewrite append_nil_r, length_app. simpl. split; [reflexivity | lia].
  - simpl in Hq. apply andb_prop in Hq as [Hc Hq].
    apply negb_true_iff in Hc. simpl CSV.parseCSVLoop. rewrite Hc.
    simpl countCommas. destruct (CSV.is_comma c) eqn:Hcomma; simpl.
    + apply is_comma_eq in Hcomma. subst c.
      destruct (IH (out ++ [cur]) EmptyString Hq) as [H1 H2].
      rewrite H1, H2, append_nil_l, <- app_assoc, length_app. simpl.
      split; [apply join_merge | lia].
    + destruct (IH out (CSV.snoc cur c) Hq) as [H1 H2].
      rewrite H1, H2, snoc_append. split; reflexivity.
Qed.

(** On a line without double quotes [parseCSVLine] splits at the commas:
    there is one field more than there are commas, and joining the fields
    with commas gives the line back. *)
Theorem parse_line_without_quotes (line : string) :
  noQuote line = true ->
  CSV.join (CSV.parseCSVLine line) = line /\
  length (CSV.parseCSVLine line) = S (countCommas line).
Proof.
  intros Hq. unfold CSV.parseCSVLine.
  destruct (parse_unquoted line [] EmptyString Hq) as [H1 H2].
  rewrite H1, H2. split; reflexivity.
Qed.

Lemma parse_line_without_quotes_witness :
  CSV.join (CSV.parseCSVLine "7,Ann,,x y") = "7,Ann,,x y" /\
  length (CSV.parseCSVLine "7,Ann,,x y") = 4%nat.
Proof.
  apply (parse_line_without_quotes "7,Ann,,x y"). reflexivity.
Defined.

(** ** The triage suggestion *)

Lemma scanKeywords_spec (lower : string) (keywords : list string)
    (tierSeverity tierConfidence : Z) :
  forall severity confidence matched,
    scanKeywords lower keywords tierSeverity tierConfidence
      (severity, confidence, matched) =
    (if existsb (includes lower) keywords then tierSeverity else severity,
     if existsb (includes lower) keywords then tierConfidence else confidence,
     matched ++ List.filter (includes lower) keywords).
Proof.
  unfold scanKeywords.
  induction keywords as [ | kw kws IH]; intros severity confidence matched.
  - simpl. now rewrite app_nil_r.
  - simpl. destruct (includes lower kw); simpl.
    + rewrite IH, <- app_assoc. simpl.
      destruct (existsb (includes lower) kws); reflexivity.
    + now rewrite IH.
Qed.

Lemma scanVentilator_spec (lower : string) (keywords : list string) :
  scanVentilator lower keywords = existsb (includes lower) keywords.
Proof.
  induction keywords as [ | kw kws IH]; simpl; [reflexivity | ].
  destruct (includes lower kw); [reflexivity | exact IH].
Qed.

Lemma filter_nil_existsb {A : Type} (f : A -> bool) (l : list A) :
  (length (List.filter f l) =? 0)%nat = negb (existsb f l).
Proof.
  induction l as [ | x l IH]; simpl; [reflexivity | ].
  destruct (f x); simpl; [reflexivity | exact IH].
Qed.

Lemma length_take_3 {A : Type} (l : list A) :
  (length l =? 0)%nat = false -> (1 <= length (take 3 l) <= 3)%nat.
Proof.
  intros H. apply Nat.eqb_neq in H. rewrite length_take. lia.
Qed.

(** The suggestion computed from a complaint, by the keywords found in its
    lower-case form: CRITICAL with confidence 95 exactly when a critical
    keyword occurs; otherwise SERIOUS with 85 exactly when a serious
    keyword occurs; otherwise NORMAL, with 75 when a normal keyword occurs
    and 50 with the single keyword [general symptoms] when nothing matches.
    One to three keywords are reported, each found in the complaint unless
    nothing matched, the ventilator flag says whether a ventilator keyword
    occurs, and the severity is one [registerPatient] keeps as it is. *)
Theorem triage_suggestion (complaint : string) :
  ((triageSeverity (analyzeTriage complaint) = 3 /\
    triageConfidence (analyzeTriage complaint) = 95 /\
    existsb (includes (toLowerCase complaint)) criticalKeywords = true) \/
   (triageSeverity (analyzeTriage complaint) = 2 /\
    triageConfidence (analyzeTriage complaint) = 85 /\
    existsb (includes (toLowerCase complaint)) criticalKeywords = false /\
    existsb (includes (toLowerCase complaint)) seriousKeywords = true) \/
   (triageSeverity (analyzeTriage complaint) = 1 /\
    triageConfidence (analyzeTriage complaint) = 75 /\
    existsb (includes (toLowerCase complaint)) criticalKeywords = false /\
    existsb (includes (toLowerCase complaint)) seriousKeywords = false /\
    existsb (includes (toLowerCase complaint)) normalKeywords = true) \/
   (triageSeverity (analyzeTriage complaint) = 1 /\
    triageConfidence (analyzeTriage complaint) = 50 /\
    existsb (includes (toLowerCase complaint)) criticalKeywords = false /\
    existsb (includes (toLowerCase complaint)) seriousKeywords = false /\
    existsb (includes (toLowerCase complaint)) normalKeywords = false /\
    matchedKeywords (analyzeTriage complaint) = ["general symptoms"])) /\
  (1 <= length (matchedKeywords (analyzeTriage complaint)) <= 3)%nat /\
  (matchedKeywords (analyzeTriage complaint) = ["general symptoms"] \/
   Forall (fun kw => includes (toLowerCase complaint) kw = true)
     (matchedKeywords (analyzeTriage complaint))) /\
  triageRequiresVentilator (analyzeTriage complaint) =
    existsb (includes (toLowerCase complaint))
      (criticalVentilatorKeywords ++ seriousVentilatorKeywords) /\
  intToSeverity (triageSeverity (analyzeTriage complaint)) =
    triageSeverity (analyzeTriage complaint) /\
  triageMessage (analyzeTriage complaint) =
    "AI suggests " +:+
    severityToString (triageSeverity (analyzeTriage complaint)) +:+
    " severity".
Proof.
  unfold analyzeTriage.
  generalize (toLowerCase complaint). intros lower.
  rewrite scanVentilator_spec.
  generalize criticalKeywords, seriousKeywords, normalKeywords.
  intros criticalList seriousList normalList.
  generalize (existsb (includes lower)
                (criticalVentilatorKeywords ++ seriousVentilatorKeywords)).
  intros vent.
  assert (Hfound : forall l : list string,
             Forall (fun kw => includes lower kw = true)
               (take 3 (List.filter (includes lower) l))).
  { intros l. apply Forall_take. apply Forall_forall. intros kw Hkw.
    apply list_elem_of_In, filter_In in Hkw. tauto. }
  rewrite scanKeywords_spec. simpl app.
  pose proof (filter_nil_existsb (includes lower) criticalList) as Hc.
  pose proof (Hfound criticalList) as Fc.
  destruct (existsb (includes lower) criticalList) eqn:Ec.
  - cbn [Z.eqb Pos.eqb negb]. rewrite Hc. cbn [negb fst snd].
    cbn [triageSeverity triageConfidence matchedKeywords
         triageRequiresVentilator triageMessage].
    split; [left; auto | ].
    split; [now apply length_take_3 | ].
    split; [right; exact Fc | ]. auto.
  - cbn [Z.eqb Pos.eqb negb]. rewrite scanKeywords_spec.
    simpl negb in Hc. apply Nat.eqb_eq in Hc.
    apply nil_length_inv in Hc. rewrite Hc. simpl app.
    pose proof (filter_nil_existsb (includes lower) seriousList) as Hs.
    pose proof (Hfound seriousList) as Fs.
    destruct (existsb (includes lower) seriousList) eqn:Es.
    + cbn [Z.eqb Pos.eqb negb]. rewrite Hs. cbn [negb fst snd].
      cbn [triageSeverity triageConfidence matchedKeywords
           triageRequiresVentilator triageMessage].
      split; [right; left; auto | ].
      split; [now apply length_take_3 | ].
      split; [right; exact Fs | ]. auto.
    + cbn [Z.eqb Pos.eqb negb]. rewrite scanKeywords_spec.
      simpl negb in Hs. apply Nat.eqb_eq in Hs.
      apply nil_length_inv in Hs. rewrite Hs. simpl app.
      pose proof (filter_nil_existsb (includes lower) normalList) as Hn.
      pose proof (Hfound normalList) as Fn.
      destruct (existsb (includes lower) normalList) eqn:En.
      * rewrite Hn. cbn [negb fst snd].
        cbn [triageSeverity triageConfidence matchedKeywords
             triageRequiresVentilator triageMessage].
        split; [right; right; left; auto | ].
        split; [now apply length_take_3 | ].
        split; [right; exact Fn | ]. auto.
      * rewrite Hn. cbn [negb fst snd].
        cbn [triageSeverity triageConfidence matchedKeywords
             triageRequiresVentilator triageMessage take].
        split; [right; right; right; repeat split; auto | ].
        split; [simpl; lia | ]. split; [now left | ]. auto.
Qed.

Lemma startsWith_spec (kw : string) :
  forall s, startsWith s kw = true <-> exists post, s = kw +:+ post.
Proof.
  induction kw as [ | k kw IH]; intros s.
  - split; [intros _; exists s; reflexivity | intros _; destruct s; reflexivity].
  - destruct s as [ | c s].
    + split; [discriminate | intros (post & H); discriminate].
    + change (startsWith (String c s) (String k kw))
        with (Ascii.eqb c k && startsWith s kw).
      split.
      * intros H. apply andb_prop in H as [Hc Hs].
        apply Ascii.eqb_eq in Hc. apply IH in Hs as (post & ->).
        subst c. exists post. reflexivity.
      * intros (post & H). rewrite append_cons in H. injection H as -> ->.
        apply andb_true_intro. split; [apply Ascii.eqb_refl | ].
        apply IH. now exists post.
Qed.

(** [includes s kw] holds exactly when [kw] occurs in [s]. *)
Lemma includes_spec (kw s : string) :
  includes s kw = true <-> exists pre post, s = pre +:+ kw +:+ post.
Proof.
  induction s as [ | c s IH].
  - change (includes EmptyString kw)
      with (startsWith EmptyString kw || false).
    rewrite orb_false_r. split.
    + intros H. apply startsWith_spec in H as (post & H).
      exists EmptyString, post. exact H.
    + intros (pre & post & H). apply startsWith_spec.
      destruct pre; [exists post; exact H | discriminate].
  - change (includes (String c s) kw)
      with (startsWith (String c s) kw || includes s kw).
    split.
    + intros H. apply orb_prop in H as [H | H].
      * apply startsWith_spec in H as (post & H).
        exists EmptyString, post. exact H.
      * apply IH in H as (pre & post & H).
        exists (String c pre), post. rewrite append_cons, H. reflexivity.
    + intros (pre & post & H). apply orb_true_intro.
      destruct pre as [ | c' pre].
      * left. apply startsWith_spec. exists post. exact H.
      * right. rewrite append_cons in H. injection H as _ ->.
        apply IH. eauto.
Qed.

(** ** The pool along runs *)

(** Along every run whose configuration requests carry non-negative
    totals, the pool of the scheduler stays within its bounds, so the
    available counts the snapshot reports lie between 0 and the totals. *)
Theorem scheduler_pool_bounds (ops : list Op) :
  Forall configuredNonneg ops ->
  Resources.bounded (resources (run ops)) /\
  0 <= Resources.availableBeds (resources (run ops))
    <= Resources.totalBeds (resources (run ops)) /\
  0 <= Resources.availableVentilators (resources (run ops))
    <= Resources.totalVentilators (resources (run ops)).
Proof.
  intros Hops. pose proof (run_bounded ops Hops) as Hb.
  split; [exact Hb | ].
  unfold Resources.bounded, Resources.availableBeds,
    Resources.availableVentilators in *. lia.
Qed.

Lemma scheduler_pool_bounds_witness :
  Resources.bounded (resources (run busyRun)).
Proof.
  apply (scheduler_pool_bounds busyRun).
  unfold busyRun. repeat constructor; simpl; lia.
Defined.

(** ** The resources file *)






Lemma trimEnd_cons (c : ascii) (s : string) :
  trimEnd (String c s) =
    match trimEnd s with
    | EmptyString =>
        if CSV.is_space c then EmptyString else String c EmptyString
    | rest' => String c rest'
    end.
Proof. reflexivity. Qed.

Lemma trimEnd_noSpace (s : string) : noSpace s = true -> trimEnd s = s.
Proof.
  induction s as [ | c s IH]; [reflexivity | ].
  simpl noSpace. intros H. apply andb_prop in H as [Hc Hs].
  apply negb_true_iff in Hc. rewrite trimEnd_cons, (IH Hs), Hc.
  now destruct s.
Qed.







(** ** Loading the patients file *)





(** ** Writing the patients file and reading it back *)


















(** *** What the loop builds from records *)








(** *** The counters and the text fields along runs *)













